(** * hackchain-debugger: the stepping state machine and the viewport
    renderer of [lib/debugger.js], embedded and verified.

    The interpreter, the disassembler and the script compiler live in
    [hackchain-core]; they appear here as an interface ([Core]) whose
    operations the debugger calls.  Mutable fields ([this.state],
    [this.counter], [this.interpreter], the list boxes) become the fields of
    a record that every method takes and returns. *)

From Stdlib Require Import ZArith List String Ascii Bool Lia.
From Stdlib Require Import Numbers.DecimalString.
From Equations Require Import Equations.
Import ListNotations.

Open Scope string_scope.
Open Scope Z_scope.

(** ** JavaScript primitives used by the source *)

Module JS.

(** [ToInt32]: the conversion that [>>] applies to its left operand. *)
Definition toInt32 (x : Z) : Z := (x + 2 ^ 31) mod 2 ^ 32 - 2 ^ 31.

(** [x >> n] on numbers holding integers: sign-propagating shift of the
    32-bit value, the count taken modulo 32. *)
Definition sar (x n : Z) : Z := Z.shiftr (toInt32 x) (n mod 32).

(** One digit of [Number.prototype.toString(16)]: lowercase. *)
Definition hexDigit (d : Z) : ascii :=
  match d with
  | 0 => "0" | 1 => "1" | 2 => "2" | 3 => "3"
  | 4 => "4" | 5 => "5" | 6 => "6" | 7 => "7"
  | 8 => "8" | 9 => "9" | 10 => "a" | 11 => "b"
  | 12 => "c" | 13 => "d" | 14 => "e" | _ => "f"
  end%char.

(** The digits of a non-negative integer in base 16, most significant
    first, accumulated in front of [acc]. *)
Equations? digits16 (n : Z) (acc : string) : string by wf (Z.to_nat n) lt :=
  digits16 n acc with Z_lt_dec n 16 => {
    | left _ := String (hexDigit n) acc;
    | right _ := digits16 (n / 16) (String (hexDigit (n mod 16)) acc) }.
Proof.
  assert (n / 16 < n) by (apply Z.div_lt; lia).
  assert (0 <= n / 16) by (apply Z.div_pos; lia).
  lia.
Qed.

(** [i.toString(16)] for an integer [i]: a minus sign, then the digits of
    the absolute value. *)
Definition toString16 (i : Z) : string :=
  if i <? 0 then String "-"%char (digits16 (- i) "") else digits16 i "".

(** [String(i)] for an array index. *)
Definition toString10 (i : Z) : string :=
  NilZero.string_of_int (Z.to_int i).

(** [s.split('\n')]: never empty; an empty string gives one empty line. *)
Definition newline : ascii := "010"%char.

Fixpoint split_lines (s : string) : list string :=
  match s with
  | EmptyString => [""]
  | String c rest =>
      if Ascii.eqb c newline then "" :: split_lines rest
      else match split_lines rest with
           | line :: more => String c line :: more
           | [] => [String c ""]
           end
  end.

(** [Array.prototype.slice] / [Buffer.prototype.slice]: a negative index
    counts from the end, every index is clamped to the length. *)
Definition relativeIndex (len k : Z) : Z :=
  if k <? 0 then Z.max (len + k) 0 else Z.min k len.

Definition slice {A : Type} (l : list A) (from to : Z) : list A :=
  let len := Z.of_nat (List.length l) in
  let lo := relativeIndex len from in
  let hi := relativeIndex len to in
  firstn (Z.to_nat (hi - lo)) (skipn (Z.to_nat lo) l).

(** [Array.prototype.map] with the index passed to the callback. *)
Fixpoint map_from {A B : Type} (f : A -> Z -> B) (i : Z) (l : list A) : list B :=
  match l with
  | [] => []
  | x :: rest => f x i :: map_from f (i + 1) rest
  end.

Definition mapi {A B : Type} (f : A -> Z -> B) (l : list A) : list B :=
  map_from f 0 l.

(** [Array.prototype.join(' ')]. *)
Fixpoint join_space (l : list string) : string :=
  match l with
  | [] => ""
  | [x] => x
  | x :: rest => x ++ " " ++ join_space rest
  end.

(** The values a caller can pass as the [data] argument. *)
#[local] Unset Elimination Schemes.
Inductive value : Type :=
| Undefined
| Null
| Boolean (b : bool)
| Number (n : Z)
| Str (s : string)
| Array (elems : list value)
| Buffer (bytes : list Byte.byte)
| Object (fields : list (string * value)).
#[local] Set Elimination Schemes.

Inductive type_tag : Type :=
| TUndefined | TObject | TBoolean | TNumber | TString.

Definition typeof (v : value) : type_tag :=
  match v with
  | Undefined => TUndefined
  | Null => TObject
  | Boolean _ => TBoolean
  | Number _ => TNumber
  | Str _ => TString
  | Array _ | Buffer _ | Object _ => TObject
  end.

Definition type_tag_eqb (a b : type_tag) : bool :=
  match a, b with
  | TUndefined, TUndefined | TObject, TObject | TBoolean, TBoolean
  | TNumber, TNumber | TString, TString => true
  | _, _ => false
  end.

(** [ToBoolean]. *)
Definition truthy (v : value) : bool :=
  match v with
  | Undefined | Null => false
  | Boolean b => b
  | Number n => negb (n =? 0)
  | Str s => negb (String.eqb s "")
  | Array _ | Buffer _ | Object _ => true
  end.

(** Property read [v.key] for the keys the constructor reads ([hash],
    [output], [input]): own fields of a plain object, [undefined] on arrays
    and buffers, which have no such property. *)
Fixpoint lookup (key : string) (fields : list (string * value)) : value :=
  match fields with
  | [] => Undefined
  | (k, v) :: rest => if String.eqb k key then v else lookup key rest
  end.

Definition get (v : value) (key : string) : value :=
  match v with
  | Object fields => lookup key fields
  | _ => Undefined
  end.

Definition isArray (v : value) : bool :=
  match v with Array _ => true | _ => false end.

Definition isBuffer (v : value) : bool :=
  match v with Buffer _ => true | _ => false end.

(** [Buffer.from(s, 'hex')]: pairs of hex digits are decoded until the
    first pair that is not hexadecimal; a trailing single digit is
    dropped.  No string makes it throw. *)
Definition hexValue (c : ascii) : option Z :=
  let n := Z.of_nat (nat_of_ascii c) in
  if (48 <=? n) && (n <=? 57) then Some (n - 48)
  else if (97 <=? n) && (n <=? 102) then Some (n - 87)
  else if (65 <=? n) && (n <=? 70) then Some (n - 55)
  else None.

Definition byte_of_Z (z : Z) : Byte.byte :=
  match Byte.of_N (Z.to_N z) with
  | Some b => b
  | None => Byte.x00
  end.

Fixpoint bufferFromHex (s : string) : list Byte.byte :=
  match s with
  | String hi (String lo rest) =>
      match hexValue hi, hexValue lo with
      | Some h, Some l => byte_of_Z (16 * h + l) :: bufferFromHex rest
      | _, _ => []
      end
  | _ => []
  end.

End JS.

(** ** The part of hackchain-core the debugger calls *)

Inductive Program (opcode : Type) : Type :=
| Opcodes (ops : list opcode)
| RawBuffer (bytes : list Byte.byte).
Arguments Opcodes {opcode} ops.
Arguments RawBuffer {opcode} bytes.

(** [this.data]: the session, fixed by the constructor. *)
Module Data.
Record t (opcode : Type) : Type := make {
  hash : list Byte.byte;
  output : Program opcode;
  input : Program opcode
}.
Arguments make {opcode} _ _ _.
Arguments hash {opcode} _.
Arguments output {opcode} _.
Arguments input {opcode} _.
End Data.

(** What the debugger reads of a thread. *)
Record Thread : Type := mkThread {
  pc : Z;
  regs : list Z
}.

(** [Interpreter], [Interpreter.Disassembler] and [TX.Script], by the
    operations [lib/debugger.js] uses.  An interpreter is a mutable object
    in the source; here every method that changes it returns the new one. *)
Class Core : Type := {
  opcode : Type;
  interpreter : Type;
  (* new Interpreter() *)
  Interpreter_new : interpreter;
  (* static configuration *)
  outputOffset : Z;
  inputOffset : Z;
  maxInitTicks : Z;
  maxTicks : Z;
  (* Script.compileTextArray(text, offset).opcodes *)
  compileTextArray : list JS.value -> Z -> list opcode;
  (* interpreter methods *)
  clear : interpreter -> interpreter;
  prepareOutput : Data.t opcode -> interpreter -> interpreter;
  prepareInput : Data.t opcode -> interpreter -> interpreter;
  prerunOneOutput : interpreter -> bool * interpreter;
  runOneBoth : interpreter -> bool * interpreter;
  (* interpreter.threads.output / .input and interpreter.memory *)
  threads_output : interpreter -> Thread;
  threads_input : interpreter -> Thread;
  memory : interpreter -> list Byte.byte;
  (* interpreter.threads.output.clearYield() and .isDone() *)
  output_clearYield : interpreter -> interpreter;
  output_isDone : interpreter -> bool;
  (* Disassembler.stringify(new Disassembler(buf).run()) *)
  disassemble : list Byte.byte -> string
}.

(** ** lib/debugger.js *)

(** The values [this.state] takes. *)
Inductive State : Type := output | both | success | failure.

Definition State_eqb (a b : State) : bool :=
  match a, b with
  | output, output | both, both | success, success | failure, failure => true
  | _, _ => false
  end.

(** A blessed list box, by what [updateThread] reads and writes. *)
Record Box : Type := mkBox {
  height : Z;
  items : list string;
  selected : Z
}.

(** The arrow function [addr] of [updateThread]. *)
Definition addr (i : Z) : string :=
  let r := JS.toString16 i in
  if (String.length r =? 1)%nat then "0x000" ++ r
  else if (String.length r =? 2)%nat then "0x00" ++ r
  else if (String.length r =? 3)%nat then "0x0" ++ r
  else if (String.length r =? 4)%nat then "0x" ++ r
  else "0x....".

(** [while (lines.length < rows) lines.unshift('...')]. *)
Equations? pad_front (rows : Z) (lines : list string) : list string
  by wf (Z.to_nat (rows - Z.of_nat (List.length lines))) lt :=
  pad_front rows lines with Z_lt_dec (Z.of_nat (List.length lines)) rows => {
    | left _ := pad_front rows ("..." :: lines);
    | right _ := lines }.
Proof. cbn [List.length]. lia. Qed.

Module Debugger.
Section WithCore.
Context {core : Core}.

Record t : Type := make {
  data : Data.t opcode;
  interp : interpreter;
  state : State;
  counter : Z;
  (* the two code lists and the register bars under them *)
  output_box : Box;
  outputRegs : string;
  input_box : Box;
  inputRegs : string;
  (* codeStyle.selected.bg: one style object, given to both lists *)
  selected_bg : string
}.

Definition set_interp (i : interpreter) (d : t) : t :=
  make (data d) i (state d) (counter d)
       (output_box d) (outputRegs d) (input_box d) (inputRegs d) (selected_bg d).

Definition set_state (s : State) (d : t) : t :=
  make (data d) (interp d) s (counter d)
       (output_box d) (outputRegs d) (input_box d) (inputRegs d) (selected_bg d).

Definition set_counter (c : Z) (d : t) : t :=
  make (data d) (interp d) (state d) c
       (output_box d) (outputRegs d) (input_box d) (inputRegs d) (selected_bg d).

(** The lines [updateThread] gives to [box.setItems]. *)
Definition viewport_lines (rows : Z) (thread : Thread) (mem : list Byte.byte)
  : list string :=
  let contextBefore := JS.sar rows 1 in
  let contextAfter := rows - contextBefore in
  let start := pc thread - 2 * contextBefore in
  let end_ := pc thread + 2 * contextAfter in
  let code := if start <? 0 then JS.slice mem 0 end_
              else JS.slice mem start end_ in
  let lines := JS.split_lines (disassemble code) in
  let lines := pad_front rows lines in
  JS.mapi (fun line i =>
             let mem := Z.max 0 (JS.sar start 1 + i) in
             let prefix := if i =? contextBefore then "* " else "  " in
             prefix ++ addr mem ++ ": " ++ line) lines.

(** The content [updateThread] gives to [bar.setContent]. *)
Definition register_line (thread : Thread) : string :=
  JS.join_space
    (JS.map_from (fun value i =>
                    "{bold}r" ++ JS.toString10 i ++ ":{/bold}" ++ addr value)
                 1 (tl (regs thread))).

(** [updateThread(box, bar, thread)]: the new box, the new bar content
    and the background written to the shared style. *)
Definition updateThread (d : t) (box : Box) (thread : Thread)
  : Box * string * string :=
  let rows := height box - 1 in
  let lines := viewport_lines rows thread (memory (interp d)) in
  let contextBefore := JS.sar rows 1 in
  let bg := match state d with
            | success => "green"
            | failure => "red"
            | _ => "grey"
            end in
  (mkBox (height box) lines contextBefore, register_line thread, bg).

Definition update (d : t) : t :=
  let '(obox, oregs, _) :=
    updateThread d (output_box d) (threads_output (interp d)) in
  let '(ibox, iregs, bg) :=
    updateThread d (input_box d) (threads_input (interp d)) in
  make (data d) (interp d) (state d) (counter d) obox oregs ibox iregs bg.

Definition restart (d : t) : t :=
  let d := set_state output d in
  let d := set_counter 0 d in
  let d := set_interp (clear (interp d)) d in
  let d := set_interp (prepareOutput (data d) (interp d)) d in
  update d.

Definition finish (result : bool) (d : t) : t :=
  let d := set_state (if result then success else failure) d in
  set_counter 0 d.

Definition _stepOutput (d : t) : t :=
  let (progress, i) := prerunOneOutput (interp d) in
  let d := set_interp i d in
  if negb progress then
    let d := set_counter (counter d + 1) d in
    if maxInitTicks <=? counter d then finish false d else d
  else
    let d := set_interp (output_clearYield (interp d)) d in
    if output_isDone (interp d) then finish true d
    else
      let d := set_interp (prepareInput (data d) (interp d)) d in
      let d := set_counter 0 d in
      set_state both d.

Definition _stepBoth (d : t) : t :=
  let (progress, i) := runOneBoth (interp d) in
  let d := set_interp i d in
  if negb progress then
    let d := set_counter (counter d + 1) d in
    if maxTicks <=? counter d then finish true d else d
  else finish true d.

Definition step (d : t) : t :=
  let d := match state d with
           | output => _stepOutput d
           | both => _stepBoth d
           | _ => d
           end in
  update d.

(** The constructor either throws (an assertion fails) or returns the
    new object. *)
Inductive construction : Type :=
| Thrown (message : string)
| Constructed (d : t).

Definition program_of (v : JS.value) (offset : Z) : Program opcode :=
  match v with
  | JS.Array text => Opcodes (compileTextArray text offset)
  | JS.Buffer bytes => RawBuffer bytes
  | _ => RawBuffer []
  end.

(** [initUI]: the widgets are created empty; [listHeight] is the height
    the terminal gives to the two code lists. *)
Definition initUI (listHeight : Z) (d : t) : t :=
  make (data d) (interp d) (state d) (counter d)
       (mkBox listHeight [] 0) "" (mkBox listHeight [] 0) "" "blue".

(** [new Debugger(title, data)]. *)
Definition new (title : string) (listHeight : Z) (payload : JS.value)
  : construction :=
  if negb (JS.truthy payload && JS.type_tag_eqb (JS.typeof payload) JS.TObject)
  then Thrown "Debugger: data must be an object"
  else if negb (JS.type_tag_eqb (JS.typeof (JS.get payload "hash")) JS.TString)
  then Thrown "Debugger: `data.hash` must be a string"
  else if negb (JS.isArray (JS.get payload "output")
                || JS.isBuffer (JS.get payload "output"))
  then Thrown "Debugger: `data.output` must be an Array or Buffer"
  else if negb (JS.isArray (JS.get payload "input")
                || JS.isBuffer (JS.get payload "input"))
  then Thrown "Debugger: `data.input` must be an Array or Buffer"
  else
    let hash := match JS.get payload "hash" with
                | JS.Str h => JS.bufferFromHex h
                | _ => []
                end in
    let dat := Data.make hash
                 (program_of (JS.get payload "output") outputOffset)
                 (program_of (JS.get payload "input") inputOffset) in
    Constructed
      (initUI listHeight
         (make dat Interpreter_new output 0
               (mkBox 0 [] 0) "" (mkBox 0 [] 0) "" "")).

(** [run()]. *)
Definition run (d : t) : t := restart d.

(** [n] presses of the Step key. *)
Fixpoint steps (n : nat) (d : t) : t :=
  match n with
  | O => d
  | S k => steps k (step d)
  end.

End WithCore.
End Debugger.

(** ** Definitions used to state the properties *)

(** Four lowercase hexadecimal digits of [n], most significant first. *)
Definition hex4 (n : Z) : string :=
  String (JS.hexDigit (n / 4096 mod 16))
    (String (JS.hexDigit (n / 256 mod 16))
       (String (JS.hexDigit (n / 16 mod 16))
          (String (JS.hexDigit (n mod 16)) ""))).

(** [s.padStart(4, '0')]: left padding with zeros to four characters. *)
Fixpoint zeros (k : nat) : string :=
  match k with
  | O => ""
  | S k' => String "0"%char (zeros k')
  end.

Definition padStart4 (s : string) : string :=
  zeros (4 - String.length s) ++ s.

(** The bytes of the window around the program counter and the lines the
    disassembler prints for them, before any padding. *)
Definition window_code (rows : Z) (thread : Thread) (mem : list Byte.byte)
  : list Byte.byte :=
  let start := pc thread - 2 * JS.sar rows 1 in
  let end_ := pc thread + 2 * (rows - JS.sar rows 1) in
  if start <? 0 then JS.slice mem 0 end_ else JS.slice mem start end_.

Definition decoded_lines {core : Core} (rows : Z) (thread : Thread)
  (mem : list Byte.byte) : list string :=
  JS.split_lines (disassemble (window_code rows thread mem)).

(** The placeholder rows put in front of [n] decoded lines. *)
Definition ellipses (rows : Z) (n : nat) : list string :=
  repeat "..." (Z.to_nat (rows - Z.of_nat n)).

(** The text of a row: marker, address label, decoded line. *)
Definition row_text (current : bool) (label : Z) (line : string) : string :=
  (if current then "* " else "  ") ++ addr label ++ ": " ++ line.

(** The checks of the constructor's four assertions. *)
Definition is_object (v : JS.value) : bool :=
  JS.truthy v && JS.type_tag_eqb (JS.typeof v) JS.TObject.

Definition is_string (v : JS.value) : bool :=
  JS.type_tag_eqb (JS.typeof v) JS.TString.

Definition array_or_buffer (v : JS.value) : bool :=
  JS.isArray v || JS.isBuffer v.

Definition payload_accepted (payload : JS.value) : bool :=
  is_object payload
  && is_string (JS.get payload "hash")
  && array_or_buffer (JS.get payload "output")
  && array_or_buffer (JS.get payload "input").

(** The payload shape the specification asks for: as above, with a hash
    made of hexadecimal digits only. *)
Fixpoint all_hex (s : string) : bool :=
  match s with
  | EmptyString => true
  | String c rest =>
      match JS.hexValue c with
      | Some _ => all_hex rest
      | None => false
      end
  end.

Definition is_hex_string (v : JS.value) : bool :=
  match v with
  | JS.Str s => all_hex s
  | _ => false
  end.

Definition payload_well_formed (payload : JS.value) : bool :=
  is_object payload
  && is_hex_string (JS.get payload "hash")
  && array_or_buffer (JS.get payload "output")
  && array_or_buffer (JS.get payload "input").

(** The invariant relating the tick counter to the budget of the phase. *)
Definition counter_in_budget {core : Core} (d : Debugger.t) : Prop :=
  match Debugger.state d with
  | output => Debugger.counter d < maxInitTicks
  | both => Debugger.counter d < maxTicks
  | success | failure => Debugger.counter d = 0
  end.

(** The public operations bound to keys. *)
Inductive command : Type := Restart | Step.

Definition perform {core : Core} (c : command) (d : Debugger.t) : Debugger.t :=
  match c with
  | Restart => Debugger.restart d
  | Step => Debugger.step d
  end.

Definition perform_all {core : Core} (cs : list command) (d : Debugger.t)
  : Debugger.t :=
  fold_left (fun acc c => perform c acc) cs d.

(** ** A scripted interpreter

    A stand-in for hackchain-core whose answers are fixed in advance, to
    run the debugger on concrete sessions. *)

Module Stub.

Record vm : Type := mkVm {
  out_answers : list bool;   (* what prerunOneOutput will return, in order *)
  both_answers : list bool;  (* what runOneBoth will return, in order *)
  out_done : bool;
  image : list Byte.byte;
  out_thread : Thread;
  in_thread : Thread
}.

Definition blank : vm :=
  mkVm [] [] false [] (mkThread 0 []) (mkThread 0 []).

(** An exhausted script answers [false]. *)
Definition next (answers : list bool) : bool * list bool :=
  match answers with
  | [] => (false, [])
  | b :: rest => (b, rest)
  end.

Definition prerun (v : vm) : bool * vm :=
  let (b, rest) := next (out_answers v) in
  (b, mkVm rest (both_answers v) (out_done v) (image v)
           (out_thread v) (in_thread v)).

Definition runBoth (v : vm) : bool * vm :=
  let (b, rest) := next (both_answers v) in
  (b, mkVm (out_answers v) rest (out_done v) (image v)
           (out_thread v) (in_thread v)).

(** A disassembler that prints one line per byte. *)
Fixpoint listing (code : list Byte.byte) : string :=
  match code with
  | [] => ""
  | [_] => "nop"
  | _ :: rest => "nop" ++ String JS.newline (listing rest)
  end.

Definition core (initTicks ticks : Z) : Core := {|
  opcode := unit;
  interpreter := vm;
  Interpreter_new := blank;
  outputOffset := 0;
  inputOffset := 4096;
  maxInitTicks := initTicks;
  maxTicks := ticks;
  compileTextArray := fun text _ => List.map (fun _ => tt) text;
  clear := fun _ => blank;
  prepareOutput := fun _ v => v;
  prepareInput := fun _ v => v;
  prerunOneOutput := prerun;
  runOneBoth := runBoth;
  threads_output := out_thread;
  threads_input := in_thread;
  memory := image;
  output_clearYield := fun v => v;
  output_isDone := out_done;
  disassemble := listing
|}.

(** An interpreter that never makes progress. *)
Definition idle_vm : vm := blank.

(** An interpreter whose second both-threads tick ends the run. *)
Definition halting_vm : vm :=
  mkVm [] [false; true] false [] (mkThread 0 []) (mkThread 0 []).

(** Interpreters whose output thread makes progress at once, done or not. *)
Definition ready_vm (done : bool) : vm :=
  mkVm [true] [] done [] (mkThread 0 []) (mkThread 0 []).

(** An interpreter with four bytes of memory and both threads at 0. *)
Definition small_vm : vm :=
  mkVm [] [] false [Byte.x00; Byte.x01; Byte.x02; Byte.x03]
            (mkThread 0 [0; 1; 43981]) (mkThread 0 []).

(** A debugger over the scripted interpreter, in a given phase. *)
Definition session (initTicks ticks : Z) (v : vm) (s : State) (c : Z)
  : @Debugger.t (core initTicks ticks) :=
  @Debugger.make (core initTicks ticks)
    (Data.make [] (RawBuffer []) (RawBuffer [])) v s c
    (mkBox 6 [] 0) "" (mkBox 6 [] 0) "" "blue".

End Stub.

(** ** Further definitions used to state properties *)

(** The phases a session cannot leave by stepping. *)
Definition terminal (s : State) : bool :=
  match s with
  | success | failure => true
  | output | both => false
  end.

(** The order in which a run goes through the phases. *)
Definition phase_rank (s : State) : nat :=
  match s with
  | output => 0
  | both => 1
  | success | failure => 2
  end.


(** The highlight colour [updateThread] picks for a phase. *)
Definition phase_colour (s : State) : string :=
  match s with
  | success => "green"
  | failure => "red"
  | output | both => "grey"
  end.

(** The widgets show the session as it is now: each list holds the
    viewport of its thread, with the current row selected, each bar holds
    the registers of its thread, and the highlight has the colour of the
    phase. *)
Definition rendered {core : Core} (d : Debugger.t) : Prop :=
  let i := Debugger.interp d in
  let shows (box : Box) (thread : Thread) :=
    items box = Debugger.viewport_lines (height box - 1) thread (memory i) /\
    selected box = JS.sar (height box - 1) 1 in
  shows (Debugger.output_box d) (threads_output i) /\
  Debugger.outputRegs d = Debugger.register_line (threads_output i) /\
  shows (Debugger.input_box d) (threads_input i) /\
  Debugger.inputRegs d = Debugger.register_line (threads_input i) /\
  Debugger.selected_bg d = phase_colour (Debugger.state d).

(** Reading a string of hexadecimal digits as a number, as
    [parseInt(s, 16)] does for such a string. *)
Fixpoint parseHex_from (acc : Z) (s : string) : option Z :=
  match s with
  | EmptyString => Some acc
  | String c rest =>
      match JS.hexValue c with
      | Some v => parseHex_from (16 * acc + v) rest
      | None => None
      end
  end.

(** The number an address label stands for: the digits after ["0x"]. *)
Definition address_value (label : string) : option Z :=
  match label with
  | String "0"%char (String "x"%char digits) => parseHex_from 0 digits
  | _ => None
  end.

(** [buf.toString('hex')]: two lowercase digits for every byte. *)
Definition Z_of_byte (b : Byte.byte) : Z := Z.of_N (Byte.to_N b).

Fixpoint hex_encode (bytes : list Byte.byte) : string :=
  match bytes with
  | [] => ""
  | b :: rest =>
      String (JS.hexDigit (Z_of_byte b / 16))
        (String (JS.hexDigit (Z_of_byte b mod 16)) (hex_encode rest))
  end.

(** [lines.join('\n')]. *)
Fixpoint join_lines (lines : list string) : string :=
  match lines with
  | [] => ""
  | [line] => line
  | line :: rest => line ++ String JS.newline (join_lines rest)
  end.

Fixpoint count_newlines (s : string) : nat :=
  match s with
  | EmptyString => 0
  | String c rest =>
      (if Ascii.eqb c JS.newline then 1 else 0) + count_newlines rest
  end.

(** The entry of the register bar for register [i] holding [value]. *)
Definition register_entry (i : Z) (value : Z) : string :=
  "{bold}r" ++ JS.toString10 i ++ ":{/bold}" ++ addr value.

(** A scripted interpreter whose disassembler prints one line for every
    two bytes, as for an instruction set of two-byte instructions. *)
Module WordStub.

Fixpoint listing (code : list Byte.byte) : string :=
  match code with
  | _ :: _ :: rest =>
      match rest with
      | _ :: _ :: _ => "nop" ++ String JS.newline (listing rest)
      | _ => "nop"
      end
  | _ => ""
  end.

Definition core (initTicks ticks : Z) : Core := {|
  opcode := unit;
  interpreter := Stub.vm;
  Interpreter_new := Stub.blank;
  outputOffset := 0;
  inputOffset := 4096;
  maxInitTicks := initTicks;
  maxTicks := ticks;
  compileTextArray := fun text _ => List.map (fun _ => tt) text;
  clear := fun _ => Stub.blank;
  prepareOutput := fun _ v => v;
  prepareInput := fun _ v => v;
  prerunOneOutput := Stub.prerun;
  runOneBoth := Stub.runBoth;
  threads_output := Stub.out_thread;
  threads_input := Stub.in_thread;
  memory := Stub.image;
  output_clearYield := fun v => v;
  output_isDone := Stub.out_done;
  disassemble := listing
|}.

Definition session (initTicks ticks : Z) (v : Stub.vm) (s : State) (c : Z)
  : @Debugger.t (core initTicks ticks) :=
  @Debugger.make (core initTicks ticks)
    (Data.make [] (RawBuffer []) (RawBuffer [])) v s c
    (mkBox 6 [] 0) "" (mkBox 6 [] 0) "" "blue".

End WordStub.

(** * Properties *)

Example toString16_255 : JS.toString16 255 = "ff".
Proof. reflexivity. Qed.

Example toString16_big : JS.toString16 74565 = "12345".
Proof. reflexivity. Qed.

Example toString16_neg : JS.toString16 (-1) = "-1".
Proof. reflexivity. Qed.

Example split_lines_ex :
  JS.split_lines ("irq" ++ String JS.newline "hlt") = ["irq"; "hlt"].
Proof. reflexivity. Qed.

Example slice_ex : JS.slice [1; 2; 3; 4; 5] 1 9 = [2; 3; 4; 5].
Proof. reflexivity. Qed.

Example register_line_ex :
  Debugger.register_line (Stub.out_thread Stub.small_vm)
  = "{bold}r1:{/bold}0x0001 {bold}r2:{/bold}0xabcd".
Proof. reflexivity. Qed.

Example bufferFromHex_ex :
  JS.bufferFromHex "0aFf" = [Byte.x0a; Byte.xff] /\ JS.bufferFromHex "zz" = [].
Proof. split; reflexivity. Qed.

(** ** The address formatter *)

Lemma digits16_small n acc :
  n < 16 -> JS.digits16 n acc = String (JS.hexDigit n) acc.
Proof.
  intros Hn. rewrite JS.digits16_equation_1.
  destruct (Z_lt_dec n 16); [reflexivity | lia].
Qed.

Lemma digits16_large n acc :
  16 <= n ->
  JS.digits16 n acc = JS.digits16 (n / 16) (String (JS.hexDigit (n mod 16)) acc).
Proof.
  intros Hn. rewrite JS.digits16_equation_1.
  destruct (Z_lt_dec n 16); [lia | reflexivity].
Qed.

Lemma digits16_length n acc :
  (String.length acc < String.length (JS.digits16 n acc))%nat.
Proof.
  funelim (JS.digits16 n acc).
  - cbn [String.length]. lia.
  - match goal with
    | IH : (String.length _ < String.length (JS.digits16 _ _))%nat |- _ =>
        cbn [String.length] in IH
    end.
    lia.
Qed.

Lemma toString16_nonneg n : 0 <= n -> JS.toString16 n = JS.digits16 n "".
Proof.
  intros Hn. unfold JS.toString16.
  destruct (n <? 0) eqn:E; [apply Z.ltb_lt in E; lia | reflexivity].
Qed.

(** Below 16^4 the digit string is [hex4] without its leading zeros. *)
Lemma toString16_hex4 n :
  0 <= n < 65536 -> padStart4 (JS.toString16 n) = hex4 n.
Proof.
  intros Hn. rewrite toString16_nonneg by lia. unfold padStart4, hex4.
  destruct (Z_lt_dec n 16) as [H1 | H1].
  { rewrite digits16_small by lia. cbn.
    replace (n / 4096) with 0 by (symmetry; apply Z.div_small; lia).
    replace (n / 256) with 0 by (symmetry; apply Z.div_small; lia).
    replace (n / 16) with 0 by (symmetry; apply Z.div_small; lia).
    rewrite (Z.mod_small n 16) by lia. reflexivity. }
  rewrite digits16_large by lia.
  assert (Hq1 : 0 <= n / 16 < 4096) by (split; [apply Z.div_pos | apply Z.div_lt_upper_bound]; lia).
  assert (E256 : n / 256 = n / 16 / 16) by (rewrite Z.div_div by lia; reflexivity).
  assert (E4096 : n / 4096 = n / 16 / 16 / 16) by (rewrite !Z.div_div by lia; reflexivity).
  rewrite E256, E4096.
  destruct (Z_lt_dec (n / 16) 16) as [H2 | H2].
  { rewrite digits16_small by lia. cbn.
    replace (n / 16 / 16) with 0 by (symmetry; apply Z.div_small; lia).
    rewrite (Z.mod_small (n / 16) 16) by lia. reflexivity. }
  rewrite digits16_large by lia.
  assert (Hq2 : 0 <= n / 16 / 16 < 256) by (split; [apply Z.div_pos | apply Z.div_lt_upper_bound]; lia).
  destruct (Z_lt_dec (n / 16 / 16) 16) as [H3 | H3].
  { rewrite digits16_small by lia. cbn.
    replace (n / 16 / 16 / 16) with 0 by (symmetry; apply Z.div_small; lia).
    rewrite (Z.mod_small (n / 16 / 16) 16) by lia. reflexivity. }
  rewrite digits16_large by lia.
  assert (Hq3 : 0 <= n / 16 / 16 / 16 < 16) by (split; [apply Z.div_pos | apply Z.div_lt_upper_bound]; lia).
  rewrite digits16_small by lia. cbn.
  rewrite (Z.mod_small (n / 16 / 16 / 16) 16) by lia. reflexivity.
Qed.

Lemma toString16_length_small n :
  0 <= n < 65536 -> (1 <= String.length (JS.toString16 n) <= 4)%nat.
Proof.
  intros Hn. rewrite toString16_nonneg by lia.
  assert (Hq1 : 0 <= n / 16 < 4096) by (split; [apply Z.div_pos | apply Z.div_lt_upper_bound]; lia).
  assert (Hq2 : 0 <= n / 16 / 16 < 256) by (split; [apply Z.div_pos | apply Z.div_lt_upper_bound]; lia).
  assert (Hq3 : 0 <= n / 16 / 16 / 16 < 16) by (split; [apply Z.div_pos | apply Z.div_lt_upper_bound]; lia).
  destruct (Z_lt_dec n 16); [rewrite digits16_small by lia; cbn; lia |].
  rewrite digits16_large by lia.
  destruct (Z_lt_dec (n / 16) 16); [rewrite digits16_small by lia; cbn; lia |].
  rewrite digits16_large by lia.
  destruct (Z_lt_dec (n / 16 / 16) 16); [rewrite digits16_small by lia; cbn; lia |].
  rewrite digits16_large by lia.
  rewrite digits16_small by lia; cbn; lia.
Qed.

Lemma toString16_length_large n :
  65536 <= n -> (4 < String.length (JS.toString16 n))%nat.
Proof.
  intros Hn. rewrite toString16_nonneg by lia.
  assert (Hq1 : 4096 <= n / 16) by (apply Z.div_le_lower_bound; lia).
  assert (Hq2 : 256 <= n / 16 / 16) by (apply Z.div_le_lower_bound; lia).
  assert (Hq3 : 16 <= n / 16 / 16 / 16) by (apply Z.div_le_lower_bound; lia).
  rewrite 4 digits16_large by lia.
  match goal with
  | |- (_ < String.length (JS.digits16 ?m ?acc))%nat =>
      pose proof (digits16_length m acc) as L
  end.
  cbn [String.length] in L. lia.
Qed.

Lemma addr_by_length n :
  addr n =
  if (String.length (JS.toString16 n) <=? 4)%nat
     && negb (String.length (JS.toString16 n) =? 0)%nat
  then "0x" ++ padStart4 (JS.toString16 n)
  else "0x....".
Proof.
  unfold addr, padStart4.
  destruct (String.length (JS.toString16 n)) as [|[|[|[|[|k]]]]]; reflexivity.
Qed.

(** C7. The address formatter renders a non-negative offset whose
    hexadecimal form has at most four digits (that is, an offset below
    16^4) as ["0x"] followed by exactly four lowercase hexadecimal digits,
    zero-padded on the left, and renders every larger offset as the fixed
    marker ["0x...."]; so [addr 0x1 = "0x0001"], [addr 0xABCD = "0xabcd"]
    and [addr 0x12345 = "0x...."]. *)
Theorem addr_format :
  (forall n : Z, 0 <= n ->
     ((String.length (JS.toString16 n) <= 4)%nat <-> n < 65536) /\
     (n < 65536 ->
        addr n = "0x" ++ padStart4 (JS.toString16 n) /\
        addr n = "0x" ++ hex4 n /\
        String.length (addr n) = 6%nat) /\
     (65536 <= n -> addr n = "0x....")) /\
  addr 1 = "0x0001" /\
  addr 43981 = "0xabcd" /\
  addr 74565 = "0x....".
Proof.
  split; [| repeat split; reflexivity].
  intros n Hn. split; [| split].
  - split; intros H.
    + destruct (Z_lt_dec n 65536) as [L | L]; [exact L |].
      pose proof (toString16_length_large n). lia.
    + pose proof (toString16_length_small n). lia.
  - intros L.
    pose proof (toString16_length_small n ltac:(lia)) as [L1 L4].
    assert (E : addr n = "0x" ++ hex4 n).
    { rewrite addr_by_length.
      replace (String.length (JS.toString16 n) <=? 4)%nat with true
        by (symmetry; apply Nat.leb_le; lia).
      replace (String.length (JS.toString16 n) =? 0)%nat with false
        by (symmetry; apply Nat.eqb_neq; lia).
      cbn [andb negb]. rewrite toString16_hex4 by lia. reflexivity. }
    split; [| split].
    + rewrite E, toString16_hex4 by lia. reflexivity.
    + exact E.
    + rewrite E. reflexivity.
  - intros L. pose proof (toString16_length_large n L) as G.
    rewrite addr_by_length.
    replace (String.length (JS.toString16 n) <=? 4)%nat with false
      by (symmetry; apply Nat.leb_gt; lia).
    reflexivity.
Qed.

Lemma addr_format_witness :
  0 <= 255 /\ addr 255 = "0x00ff" /\ addr 65536 = "0x....".
Proof.
  split; [lia |].
  destruct addr_format as [H _].
  destruct (H 255 ltac:(lia)) as (_ & Hs & _).
  destruct (H 65536 ltac:(lia)) as (_ & _ & Hl).
  split.
  - destruct (Hs ltac:(lia)) as (_ & E & _). rewrite E. reflexivity.
  - apply Hl. lia.
Defined.


(** ** The stepping state machine *)

Section StateMachine.
Context {core : Core}.

Import Debugger.

(** Rendering reads the session and writes only the widgets. *)
Lemma update_frame d :
  data (update d) = data d /\ interp (update d) = interp d /\
  state (update d) = state d /\ counter (update d) = counter d.
Proof. unfold update, updateThread. cbn. repeat split; reflexivity. Qed.

Lemma finish_state result d :
  state (finish result d) = (if result then success else failure) /\
  counter (finish result d) = 0 /\
  interp (finish result d) = interp d /\ data (finish result d) = data d.
Proof. unfold finish. cbn. repeat split; reflexivity. Qed.

Lemma steps_succ n d : steps (S n) d = step (steps n d).
Proof.
  revert d. induction n as [| n IH]; intros d; [reflexivity |].
  change (steps (S (S n)) d) with (steps (S n) (step d)).
  rewrite IH. reflexivity.
Qed.

Lemma restart_frame d :
  state (restart d) = output /\ counter (restart d) = 0 /\
  interp (restart d) = prepareOutput (data d) (clear (interp d)) /\
  data (restart d) = data d.
Proof. unfold restart. cbn. repeat split; reflexivity. Qed.

Lemma restart_unfold d :
  restart d =
  update (make (data d) (prepareOutput (data d) (clear (interp d))) output 0
               (output_box d) (outputRegs d) (input_box d) (inputRegs d)
               (selected_bg d)).
Proof. reflexivity. Qed.

Lemma restart_heights d :
  height (output_box (restart d)) = height (output_box d) /\
  height (input_box (restart d)) = height (input_box d).
Proof. unfold restart, update, updateThread. cbn. split; reflexivity. Qed.

(** Rendering overwrites the widgets: two sessions that agree on the
    data, the interpreter, the phase, the counter and the list heights
    render to the same session. *)
Lemma update_ext d1 d2 :
  data d1 = data d2 -> interp d1 = interp d2 ->
  state d1 = state d2 -> counter d1 = counter d2 ->
  height (output_box d1) = height (output_box d2) ->
  height (input_box d1) = height (input_box d2) ->
  update d1 = update d2.
Proof.
  intros Hd Hi Hs Hc Ho Hin. unfold update, updateThread. cbn.
  rewrite Hd, Hi, Hs, Hc, Ho, Hin. reflexivity.
Qed.

Lemma update_heights d :
  height (output_box (update d)) = height (output_box d) /\
  height (input_box (update d)) = height (input_box d).
Proof. unfold update, updateThread. cbn. split; reflexivity. Qed.

Lemma step_frame d :
  let d' := match state d with
            | output => _stepOutput d
            | both => _stepBoth d
            | _ => d
            end in
  data (step d) = data d' /\ interp (step d) = interp d' /\
  state (step d) = state d' /\ counter (step d) = counter d'.
Proof. apply update_frame. Qed.

(** One step of the output thread alone that makes no progress. *)
Lemma step_output_idle d :
  state d = output ->
  fst (prerunOneOutput (interp d)) = false ->
  interp (step d) = snd (prerunOneOutput (interp d)) /\
  (counter d + 1 < maxInitTicks ->
   state (step d) = output /\ counter (step d) = counter d + 1) /\
  (maxInitTicks <= counter d + 1 ->
   state (step d) = failure /\ counter (step d) = 0).
Proof.
  intros Hs Ha. destruct (step_frame d) as (_ & Hi & Hst & Hc).
  rewrite Hs in Hi, Hst, Hc. rewrite Hi, Hst, Hc. clear Hi Hst Hc.
  unfold _stepOutput.
  destruct (prerunOneOutput (interp d)) as [p i]. cbn in Ha. subst p.
  cbn [negb set_interp set_counter counter snd].
  destruct (maxInitTicks <=? counter d + 1) eqn:E.
  - apply Z.leb_le in E. cbn. repeat split; try reflexivity; lia.
  - apply Z.leb_gt in E. cbn. repeat split; try assumption; try reflexivity; lia.
Qed.

(** One step of both threads that makes no progress. *)
Lemma step_both_idle d :
  state d = both ->
  fst (runOneBoth (interp d)) = false ->
  interp (step d) = snd (runOneBoth (interp d)) /\
  (counter d + 1 < maxTicks ->
   state (step d) = both /\ counter (step d) = counter d + 1) /\
  (maxTicks <= counter d + 1 ->
   state (step d) = success /\ counter (step d) = 0).
Proof.
  intros Hs Ha. destruct (step_frame d) as (_ & Hi & Hst & Hc).
  rewrite Hs in Hi, Hst, Hc. rewrite Hi, Hst, Hc. clear Hi Hst Hc.
  unfold _stepBoth.
  destruct (runOneBoth (interp d)) as [p i]. cbn in Ha. subst p.
  cbn [negb set_interp set_counter counter snd].
  destruct (maxTicks <=? counter d + 1) eqn:E.
  - apply Z.leb_le in E. cbn. repeat split; try reflexivity; lia.
  - apply Z.leb_gt in E. cbn. repeat split; try assumption; try reflexivity; lia.
Qed.

(** One step of both threads on which the interpreter reports an end. *)
Lemma step_both_progress d :
  state d = both ->
  fst (runOneBoth (interp d)) = true ->
  state (step d) = success /\ counter (step d) = 0 /\
  interp (step d) = snd (runOneBoth (interp d)).
Proof.
  intros Hs Ha. destruct (step_frame d) as (_ & Hi & Hst & Hc).
  rewrite Hs in Hi, Hst, Hc. rewrite Hi, Hst, Hc. clear Hi Hst Hc.
  unfold _stepBoth.
  destruct (runOneBoth (interp d)) as [p i]. cbn in Ha. subst p.
  cbn. repeat split; reflexivity.
Qed.

(** A finished session ignores the Step key. *)
Lemma step_finished d :
  state d = success \/ state d = failure ->
  data (step d) = data d /\ interp (step d) = interp d /\
  state (step d) = state d /\ counter (step d) = counter d.
Proof.
  intros Hs. destruct (step_frame d) as (Hd & Hi & Hst & Hc).
  destruct Hs as [Hs | Hs]; rewrite Hs in Hd, Hi, Hst, Hc;
    repeat split; assumption.
Qed.

Lemma steps_finished n d :
  state d = success \/ state d = failure ->
  data (steps n d) = data d /\ interp (steps n d) = interp d /\
  state (steps n d) = state d /\ counter (steps n d) = counter d.
Proof.
  intros Hs. induction n as [| n IH]; [repeat split; reflexivity |].
  rewrite steps_succ. destruct IH as (Hd & Hi & Hst & Hc).
  destruct (step_finished (steps n d)) as (Hd' & Hi' & Hst' & Hc').
  { rewrite Hst. exact Hs. }
  repeat split; congruence.
Qed.

Lemma steps_add n m d : steps (n + m) d = steps m (steps n d).
Proof.
  revert d. induction n as [| n IH]; intros d; [reflexivity |].
  cbn [Nat.add steps]. apply IH.
Qed.

(** While the budget is not reached, idle steps stay in the phase and
    count. *)
Lemma bootstrap_idle_prefix k d :
  state d = output ->
  (forall j, (j < k)%nat -> fst (prerunOneOutput (interp (steps j d))) = false) ->
  counter d + Z.of_nat k < maxInitTicks ->
  state (steps k d) = output /\ counter (steps k d) = counter d + Z.of_nat k.
Proof.
  intros Hs. induction k as [| k IH]; intros Hidle Hb.
  - cbn [steps]. split; [exact Hs | lia].
  - destruct IH as [Hst Hc]; [intros j Hj; apply Hidle; lia | lia |].
    rewrite steps_succ.
    destruct (step_output_idle (steps k d) Hst) as (_ & Hstay & _);
      [apply Hidle; lia |].
    destruct Hstay as [Hst' Hc']; [lia |].
    split; [exact Hst' | lia].
Qed.

Lemma joint_idle_prefix k d :
  state d = both ->
  (forall j, (j < k)%nat -> fst (runOneBoth (interp (steps j d))) = false) ->
  counter d + Z.of_nat k < maxTicks ->
  state (steps k d) = both /\ counter (steps k d) = counter d + Z.of_nat k.
Proof.
  intros Hs. induction k as [| k IH]; intros Hidle Hb.
  - cbn [steps]. split; [exact Hs | lia].
  - destruct IH as [Hst Hc]; [intros j Hj; apply Hidle; lia | lia |].
    rewrite steps_succ.
    destruct (step_both_idle (steps k d) Hst) as (_ & Hstay & _);
      [apply Hidle; lia |].
    destruct Hstay as [Hst' Hc']; [lia |].
    split; [exact Hst' | lia].
Qed.

(** C3. From the bootstrapping phase with tick counter 0 and a budget of
    [maxInitTicks = N] ticks, if the interpreter's output-only tick reports
    no progress on every step, the session is still bootstrapping after
    each of the first [N - 1] steps, is failed after exactly [N] steps with
    the tick counter back at 0, and stays failed afterwards. *)
Theorem bootstrap_timeout d :
  0 < maxInitTicks ->
  state d = output ->
  counter d = 0 ->
  (forall k, (k < Z.to_nat maxInitTicks)%nat ->
     fst (prerunOneOutput (interp (steps k d))) = false) ->
  (forall k, (k < Z.to_nat maxInitTicks)%nat ->
     state (steps k d) = output /\ counter (steps k d) = Z.of_nat k) /\
  state (steps (Z.to_nat maxInitTicks) d) = failure /\
  counter (steps (Z.to_nat maxInitTicks) d) = 0 /\
  (forall m, (Z.to_nat maxInitTicks <= m)%nat -> state (steps m d) = failure).
Proof.
  intros Hpos Hs Hc Hidle.
  assert (Hprefix : forall k, (k < Z.to_nat maxInitTicks)%nat ->
            state (steps k d) = output /\ counter (steps k d) = Z.of_nat k).
  { intros k Hk.
    destruct (bootstrap_idle_prefix k d Hs) as [Hst Hct];
      [intros j Hj; apply Hidle; lia | lia |].
    split; [exact Hst | lia]. }
  assert (Hlast : state (steps (Z.to_nat maxInitTicks) d) = failure /\
                  counter (steps (Z.to_nat maxInitTicks) d) = 0).
  { destruct (Z.to_nat maxInitTicks) as [| n] eqn:En; [lia |].
    rewrite steps_succ.
    destruct (Hprefix n) as [Hst Hct]; [lia |].
    destruct (step_output_idle (steps n d) Hst) as (_ & _ & Hfail);
      [apply Hidle; lia |].
    apply Hfail. lia. }
  split; [exact Hprefix |].
  split; [apply Hlast |]. split; [apply Hlast |].
  intros m Hm.
  replace m with (Z.to_nat maxInitTicks + (m - Z.to_nat maxInitTicks))%nat by lia.
  rewrite steps_add.
  destruct (steps_finished (m - Z.to_nat maxInitTicks)
              (steps (Z.to_nat maxInitTicks) d)) as (_ & _ & Hst & _).
  { right. apply Hlast. }
  rewrite Hst. apply Hlast.
Qed.

(** C1. From the joint phase with tick counter 0 and a budget of
    [maxTicks = M] ticks: if the interpreter's both-threads tick reports
    no progress on every step, the session is still joint after each of the
    first [M - 1] steps and succeeded after exactly [M] steps; if it first
    reports progress on step [k + 1 <= M] (after [k] idle steps), the
    session is joint up to then and succeeded right after that step; and a
    step taken in the joint phase never gives the failed phase. *)
Theorem joint_budget d :
  0 < maxTicks ->
  state d = both ->
  counter d = 0 ->
  ((forall k, (k < Z.to_nat maxTicks)%nat ->
      fst (runOneBoth (interp (steps k d))) = false) ->
   (forall k, (k < Z.to_nat maxTicks)%nat -> state (steps k d) = both) /\
   state (steps (Z.to_nat maxTicks) d) = success /\
   counter (steps (Z.to_nat maxTicks) d) = 0) /\
  (forall k, (k < Z.to_nat maxTicks)%nat ->
     (forall j, (j < k)%nat -> fst (runOneBoth (interp (steps j d))) = false) ->
     fst (runOneBoth (interp (steps k d))) = true ->
     (forall j, (j <= k)%nat -> state (steps j d) = both) /\
     state (steps (S k) d) = success /\
     counter (steps (S k) d) = 0) /\
  (forall d', state d' = both ->
     state (step d') <> failure /\
     (state (step d') = both \/ state (step d') = success)).
Proof.
  intros Hpos Hs Hc.
  assert (Hprefix : forall k, (k < Z.to_nat maxTicks)%nat ->
            (forall j, (j < k)%nat ->
               fst (runOneBoth (interp (steps j d))) = false) ->
            state (steps k d) = both /\ counter (steps k d) = Z.of_nat k).
  { intros k Hk Hidle.
    destruct (joint_idle_prefix k d Hs Hidle) as [Hst Hct]; [lia |].
    split; [exact Hst | lia]. }
  split; [| split].
  - intros Hidle. split.
    + intros k Hk. apply Hprefix; [exact Hk |].
      intros j Hj. apply Hidle. lia.
    + destruct (Z.to_nat maxTicks) as [| n] eqn:En; [lia |].
      rewrite steps_succ.
      destruct (Hprefix n) as [Hst Hct];
        [lia | intros j Hj; apply Hidle; lia |].
      destruct (step_both_idle (steps n d) Hst) as (_ & _ & Hdone);
        [apply Hidle; lia |].
      apply Hdone. lia.
  - intros k Hk Hidle Hfire. split.
    + intros j Hj. apply Hprefix; [lia |].
      intros i Hi. apply Hidle. lia.
    + rewrite steps_succ.
      destruct (Hprefix k Hk Hidle) as [Hst _].
      destruct (step_both_progress (steps k d) Hst Hfire) as (H1 & H2 & _).
      split; assumption.
  - intros d' Hs'.
    destruct (fst (runOneBoth (interp d'))) eqn:Ea.
    + destruct (step_both_progress d' Hs' Ea) as (H1 & _).
      rewrite H1. split; [discriminate | right; reflexivity].
    + destruct (step_both_idle d' Hs' Ea) as (_ & Hstay & Hdone).
      destruct (Z_lt_dec (counter d' + 1) maxTicks) as [L | L].
      * destruct (Hstay L) as [H1 _]. rewrite H1.
        split; [discriminate | left; reflexivity].
      * destruct Hdone as [H1 _]; [lia |]. rewrite H1.
        split; [discriminate | right; reflexivity].
Qed.

(** C4. A step taken while bootstrapping on which the output thread made
    progress clears the thread's yield flag and then: if the output thread
    is done, the session is succeeded at once (it never becomes joint);
    otherwise the interpreter prepares the input thread from the session
    data, the tick counter is 0 and the session is joint. *)
Theorem bootstrap_progress d :
  state d = output ->
  fst (prerunOneOutput (interp d)) = true ->
  let i := output_clearYield (snd (prerunOneOutput (interp d))) in
  (output_isDone i = true ->
     state (step d) = success /\ counter (step d) = 0 /\ interp (step d) = i) /\
  (output_isDone i = false ->
     state (step d) = both /\ counter (step d) = 0 /\
     interp (step d) = prepareInput (data d) i) /\
  data (step d) = data d.
Proof.
  intros Hs Ha. destruct (step_frame d) as (Hd & Hi & Hst & Hc).
  rewrite Hs in Hd, Hi, Hst, Hc. rewrite Hd, Hi, Hst, Hc. clear Hd Hi Hst Hc.
  unfold _stepOutput.
  destruct (prerunOneOutput (interp d)) as [p i0]. cbn in Ha. subst p.
  cbn [negb set_interp interp snd data].
  destruct (output_isDone (output_clearYield i0)) eqn:Ed; cbn;
    repeat split; intros; try reflexivity; try discriminate.
Qed.

(** C5. In the succeeded and in the failed phase a step changes neither
    the phase nor the tick counter (nor the interpreter or the session
    data), however often it is repeated; restart leaves the phase. *)
Theorem step_terminal d :
  state d = success \/ state d = failure ->
  (state (step d) = state d /\ counter (step d) = counter d /\
   interp (step d) = interp d /\ data (step d) = data d) /\
  (forall n, state (steps n d) = state d /\ counter (steps n d) = counter d) /\
  state (restart d) = output.
Proof.
  intros Hs. split; [| split].
  - destruct (step_finished d Hs) as (Hd & Hi & Hst & Hc).
    repeat split; assumption.
  - intros n. destruct (steps_finished n d Hs) as (_ & _ & Hst & Hc).
    split; assumption.
  - apply restart_frame.
Qed.

(** C6. From any phase, restart puts the session in the bootstrapping
    phase with tick counter 0 and an interpreter that was cleared and then
    prepared with the output program of the session data, which it keeps;
    restart is a total function of the session, and a second restart in a
    row changes nothing: phase, counter and data are the same, and the
    whole session is the same whenever clearing the interpreter discards
    what the first restart had prepared. *)
Theorem restart_resets d :
  (state (restart d) = output /\ counter (restart d) = 0 /\
   interp (restart d) = prepareOutput (data d) (clear (interp d)) /\
   data (restart d) = data d) /\
  (state (restart (restart d)) = state (restart d) /\
   counter (restart (restart d)) = counter (restart d) /\
   data (restart (restart d)) = data (restart d)) /\
  (clear (prepareOutput (data d) (clear (interp d))) = clear (interp d) ->
   restart (restart d) = restart d).
Proof.
  destruct (restart_frame d) as (Hs & Hc & Hi & Hd).
  destruct (restart_frame (restart d)) as (Hs2 & Hc2 & Hi2 & Hd2).
  split; [repeat split; assumption |].
  split; [repeat split; congruence |].
  intros Hclear.
  destruct (restart_heights d) as (Ho & Hin).
  rewrite (restart_unfold (restart d)), Hd, Hi, Hclear.
  etransitivity; [| symmetry; apply restart_unfold].
  apply update_ext; cbn; first [reflexivity | assumption].
Qed.

Lemma step_in_budget d :
  0 < maxTicks -> counter_in_budget d -> counter_in_budget (step d).
Proof.
  intros Hpos. unfold counter_in_budget.
  destruct (step_frame d) as (_ & _ & Hst & Hc). rewrite Hst, Hc. clear Hst Hc.
  destruct (state d) eqn:Es; intros Hinv.
  - unfold _stepOutput.
    destruct (prerunOneOutput (interp d)) as [[|] i]; cbn.
    + destruct (output_isDone (output_clearYield i)); cbn; [reflexivity | exact Hpos].
    + destruct (maxInitTicks <=? counter d + 1) eqn:E; cbn.
      * reflexivity.
      * rewrite Es. apply Z.leb_gt in E. exact E.
  - unfold _stepBoth.
    destruct (runOneBoth (interp d)) as [[|] i]; cbn.
    + reflexivity.
    + destruct (maxTicks <=? counter d + 1) eqn:E; cbn.
      * reflexivity.
      * rewrite Es. apply Z.leb_gt in E. exact E.
  - rewrite Es. exact Hinv.
  - rewrite Es. exact Hinv.
Qed.

Lemma restart_in_budget d : 0 < maxInitTicks -> counter_in_budget (restart d).
Proof.
  intros Hpos. unfold counter_in_budget.
  destruct (restart_frame d) as (Hs & Hc & _). rewrite Hs, Hc. exact Hpos.
Qed.

Lemma perform_all_in_budget cs d :
  0 < maxInitTicks -> 0 < maxTicks ->
  counter_in_budget d -> counter_in_budget (perform_all cs d).
Proof.
  intros Hi Ht. revert d. unfold perform_all.
  induction cs as [| c cs IH]; intros d Hinv; [exact Hinv |].
  cbn [fold_left]. apply IH. destruct c; cbn [perform].
  - apply restart_in_budget. exact Hi.
  - apply step_in_budget; assumption.
Qed.

(** C10. With positive tick budgets, after every restart and after every
    step of a session the tick counter is below the budget of its phase:
    below [maxInitTicks] while bootstrapping, below [maxTicks] while joint,
    and exactly 0 once succeeded or failed.  This holds after a restart of
    any session, is kept by every step, and so holds after every sequence
    of commands applied to a newly constructed session. *)
Theorem counter_below_budget :
  0 < maxInitTicks ->
  0 < maxTicks ->
  (forall d, counter_in_budget (restart d)) /\
  (forall d, counter_in_budget d -> counter_in_budget (step d)) /\
  (forall title listHeight payload d cs,
     new title listHeight payload = Constructed d ->
     counter_in_budget d /\ counter_in_budget (perform_all cs d)) /\
  (forall d cs, counter_in_budget (perform_all cs (restart d))).
Proof.
  intros Hi Ht. split; [| split; [| split]].
  - intros d. apply restart_in_budget. exact Hi.
  - intros d. apply step_in_budget. exact Ht.
  - intros title listHeight payload d cs Hnew.
    assert (Hfresh : counter_in_budget d).
    { unfold new in Hnew.
      repeat match type of Hnew with
             | (if ?c then _ else _) = _ => destruct c; [discriminate |]
             end.
      injection Hnew as <-. unfold counter_in_budget. cbn. exact Hi. }
    split; [exact Hfresh |].
    apply perform_all_in_budget; assumption.
  - intros d cs.
    apply perform_all_in_budget; [exact Hi | exact Ht |].
    apply restart_in_budget. exact Hi.
Qed.

End StateMachine.

(** ** The viewport *)

Section Viewport.
Context {core : Core}.

Import Debugger.

Lemma pad_front_ellipses rows lines :
  pad_front rows lines = (ellipses rows (List.length lines) ++ lines)%list.
Proof.
  funelim (pad_front rows lines).
  - match goal with
    | IH : pad_front _ _ = app _ _ |- _ => rewrite IH
    end.
    unfold ellipses. cbn [List.length].
    replace (Z.to_nat (rows - Z.of_nat (List.length lines)))
      with (S (Z.to_nat (rows - Z.of_nat (S (List.length lines))))) by lia.
    cbn [repeat]. rewrite repeat_cons, <- app_assoc. reflexivity.
  - unfold ellipses.
    replace (Z.to_nat (rows - Z.of_nat (List.length lines))) with O by lia.
    reflexivity.
Qed.

Lemma pad_front_length rows lines :
  Z.of_nat (List.length (pad_front rows lines)) =
  Z.max rows (Z.of_nat (List.length lines)).
Proof.
  rewrite pad_front_ellipses. unfold ellipses.
  rewrite length_app, repeat_length. lia.
Qed.

Lemma map_from_length {A B} (f : A -> Z -> B) i l :
  List.length (JS.map_from f i l) = List.length l.
Proof.
  revert i. induction l as [| x l IH]; intros i; cbn; [reflexivity |].
  rewrite IH. reflexivity.
Qed.

Lemma map_from_nth_error {A B} (f : A -> Z -> B) i l k :
  nth_error (JS.map_from f i l) k =
  option_map (fun x => f x (i + Z.of_nat k)) (nth_error l k).
Proof.
  revert i k. induction l as [| x l IH]; intros i k.
  - destruct k; reflexivity.
  - destruct k as [| k]; cbn [JS.map_from nth_error option_map].
    + rewrite Z.add_0_r. reflexivity.
    + rewrite IH. destruct (nth_error l k); cbn; [| reflexivity].
      do 2 f_equal. lia.
Qed.

Lemma viewport_lines_decoded rows thread mem :
  viewport_lines rows thread mem =
  JS.mapi (fun line i =>
             row_text (i =? JS.sar rows 1)
                      (Z.max 0 (JS.sar (pc thread - 2 * JS.sar rows 1) 1 + i))
                      line)
          (pad_front rows (decoded_lines rows thread mem)).
Proof. reflexivity. Qed.

Lemma sar_1_int32 x : - 2 ^ 31 <= x < 2 ^ 31 -> JS.sar x 1 = x / 2.
Proof.
  intros Hx. unfold JS.sar, JS.toInt32.
  replace ((x + 2 ^ 31) mod 2 ^ 32) with (x + 2 ^ 31)
    by (symmetry; apply Z.mod_small; lia).
  replace (x + 2 ^ 31 - 2 ^ 31) with x by lia.
  change (1 mod 32) with 1. rewrite Z.shiftr_div_pow2 by lia.
  reflexivity.
Qed.

Lemma updateThread_box d box thread :
  fst (fst (updateThread d box thread)) =
  mkBox (height box)
        (viewport_lines (height box - 1) thread (memory (interp d)))
        (JS.sar (height box - 1) 1).
Proof. reflexivity. Qed.

(** C2, as the code has it.  The lines given to a list box are the decoded
    lines of the window, each with its marker and address label, behind as
    many ["..."] rows as it takes to reach [rowCount]: their number is the
    larger of [rowCount] and the number of decoded lines.  Output shorter
    than [rowCount] is padded at the front to exactly [rowCount] rows;
    output that already has [rowCount] lines or more gets no padding and
    is not cut. *)
Theorem viewport_row_count d box thread :
  let rows := height box - 1 in
  let decoded := decoded_lines rows thread (memory (interp d)) in
  let lines := items (fst (fst (updateThread d box thread))) in
  1 <= rows ->
  Z.of_nat (List.length lines) = Z.max rows (Z.of_nat (List.length decoded)) /\
  lines =
    JS.mapi (fun line i =>
               row_text (i =? JS.sar rows 1)
                        (Z.max 0 (JS.sar (pc thread - 2 * JS.sar rows 1) 1 + i))
                        line)
            (ellipses rows (List.length decoded) ++ decoded)%list /\
  (Z.of_nat (List.length decoded) <= rows ->
   Z.of_nat (List.length lines) = rows /\
   Z.of_nat (List.length (ellipses rows (List.length decoded))) =
     rows - Z.of_nat (List.length decoded)) /\
  (rows <= Z.of_nat (List.length decoded) ->
   List.length lines = List.length decoded /\
   ellipses rows (List.length decoded) = []).
Proof.
  intros rows decoded lines Hrows. subst lines.
  rewrite updateThread_box. cbn [items]. fold rows.
  rewrite viewport_lines_decoded. fold rows.
  change (decoded_lines rows thread (memory (interp d))) with decoded.
  assert (Hlen : Z.of_nat (List.length (JS.mapi
            (fun line i =>
               row_text (i =? JS.sar rows 1)
                        (Z.max 0 (JS.sar (pc thread - 2 * JS.sar rows 1) 1 + i))
                        line)
            (pad_front rows decoded))) =
          Z.max rows (Z.of_nat (List.length decoded))).
  { unfold JS.mapi. rewrite map_from_length. apply pad_front_length. }
  split; [exact Hlen |].
  split; [rewrite pad_front_ellipses; reflexivity |].
  split.
  - intros Hshort. split; [lia |].
    unfold ellipses. rewrite repeat_length. lia.
  - intros Hlong. split; [lia |].
    unfold ellipses.
    replace (Z.to_nat (rows - Z.of_nat (List.length decoded))) with O by lia.
    reflexivity.
Qed.

(** C8. For a list of [rowCount] rows, [1 <= rowCount < 2^31], and a
    program counter in [0, 2^31): the selected row is
    [contextBefore = floor(rowCount / 2)], which is 2 for 5 rows and for 4
    rows; that row exists; the row at that index, and no other, starts with
    ["* "], every other row with two spaces; and the address label of row
    [i] is [addr (max 0 (floor(start / 2) + i))], [start] being the
    computed window start [pc - 2 * contextBefore]. *)
Theorem viewport_current_row :
  (forall d box thread,
     let rows := height box - 1 in
     1 <= rows < 2 ^ 31 ->
     0 <= pc thread < 2 ^ 31 ->
     let box' := fst (fst (updateThread d box thread)) in
     let contextBefore := rows / 2 in
     let start := pc thread - 2 * contextBefore in
     let padded :=
       pad_front rows (decoded_lines rows thread (memory (interp d))) in
     selected box' = contextBefore /\
     0 <= contextBefore < Z.of_nat (List.length (items box')) /\
     List.length (items box') = List.length padded /\
     (forall i line,
        nth_error padded i = Some line ->
        nth_error (items box') i =
        Some ((if Z.of_nat i =? contextBefore then "* " else "  ")
              ++ addr (Z.max 0 (start / 2 + Z.of_nat i)) ++ ": " ++ line))) /\
  (forall d items0 sel0 thread,
     selected (fst (fst (updateThread d (mkBox 6 items0 sel0) thread))) = 2) /\
  (forall d items0 sel0 thread,
     selected (fst (fst (updateThread d (mkBox 5 items0 sel0) thread))) = 2).
Proof.
  split; [| split; intros; reflexivity].
  intros d box thread rows Hrows Hpc box' contextBefore start padded.
  assert (Hcb : JS.sar rows 1 = contextBefore) by (apply sar_1_int32; lia).
  assert (Hcb_range : 0 <= contextBefore < rows).
  { subst contextBefore. split; [apply Z.div_pos; lia |].
    apply Z.div_lt_upper_bound; lia. }
  assert (Hstart : JS.sar start 1 = start / 2).
  { apply sar_1_int32. subst start.
    assert (2 * contextBefore <= rows)
      by (subst contextBefore; apply Z.mul_div_le; lia).
    lia. }
  subst box'. rewrite updateThread_box. cbn [items selected]. fold rows.
  rewrite viewport_lines_decoded. fold rows. rewrite Hcb. fold start.
  rewrite Hstart. fold padded.
  assert (Hlen : Z.of_nat (List.length padded) =
                 Z.max rows (Z.of_nat (List.length
                   (decoded_lines rows thread (memory (interp d))))))
    by apply pad_front_length.
  unfold JS.mapi. rewrite map_from_length.
  split; [reflexivity |]. split; [lia |]. split; [reflexivity |].
  intros i line Hnth. rewrite map_from_nth_error, Hnth. cbn [option_map].
  rewrite Z.add_0_l. reflexivity.
Qed.

End Viewport.

(** ** Construction *)

Section Construction.
Context {core : Core}.

Import Debugger.

Lemma new_accepted title listHeight payload :
  payload_accepted payload = true ->
  exists d, new title listHeight payload = Constructed d /\
            state d = output /\ counter d = 0 /\ interp d = Interpreter_new.
Proof.
  unfold payload_accepted, is_object, is_string, array_or_buffer, new.
  intros H.
  apply andb_prop in H as [H Hin]. apply andb_prop in H as [H Hout].
  apply andb_prop in H as [Hobj Hhash].
  rewrite Hobj, Hhash, Hout, Hin. cbn [negb].
  eexists. split; [reflexivity |]. cbn. repeat split; reflexivity.
Qed.

Lemma new_rejected title listHeight payload :
  payload_accepted payload = false ->
  exists message, new title listHeight payload = Thrown message.
Proof.
  unfold payload_accepted, is_object, is_string, array_or_buffer, new.
  intros H.
  destruct (JS.truthy payload && JS.type_tag_eqb (JS.typeof payload) JS.TObject);
    cbn [negb andb] in *; [| eexists; reflexivity].
  destruct (JS.type_tag_eqb (JS.typeof (JS.get payload "hash")) JS.TString);
    cbn [negb andb] in *; [| eexists; reflexivity].
  destruct (JS.isArray (JS.get payload "output")
            || JS.isBuffer (JS.get payload "output"));
    cbn [negb andb] in *; [| eexists; reflexivity].
  destruct (JS.isArray (JS.get payload "input")
            || JS.isBuffer (JS.get payload "input"));
    cbn [negb andb] in *; [discriminate | eexists; reflexivity].
Qed.

Lemma well_formed_accepted payload :
  payload_well_formed payload = true -> payload_accepted payload = true.
Proof.
  unfold payload_well_formed, payload_accepted. intros H.
  apply andb_prop in H as [H Hin]. apply andb_prop in H as [H Hout].
  apply andb_prop in H as [Hobj Hhash].
  rewrite Hobj, Hout, Hin.
  destruct (JS.get payload "hash"); try discriminate. reflexivity.
Qed.

(** C9, as the code has it.  The constructor throws exactly when the
    payload is not an object, or its [hash] is not a string, or its
    [output] or its [input] is neither an array nor a buffer; whether the
    hash string is hexadecimal is not checked.  Every other payload, so in
    particular every payload with a hexadecimal hash, gives a session in
    the bootstrapping phase with tick counter 0 and a new interpreter. *)
Theorem new_validates title listHeight payload :
  ((exists message, new title listHeight payload = Thrown message) <->
   (is_object payload = false \/
    is_string (JS.get payload "hash") = false \/
    array_or_buffer (JS.get payload "output") = false \/
    array_or_buffer (JS.get payload "input") = false)) /\
  (payload_accepted payload = true ->
   exists d, new title listHeight payload = Constructed d /\
             state d = output /\ counter d = 0 /\ interp d = Interpreter_new) /\
  (payload_well_formed payload = true ->
   exists d, new title listHeight payload = Constructed d).
Proof.
  split; [| split].
  - split.
    + intros [message Hthrown].
      destruct (payload_accepted payload) eqn:Ea.
      * destruct (new_accepted title listHeight payload Ea) as (d & Hd & _).
        rewrite Hd in Hthrown. discriminate.
      * unfold payload_accepted in Ea.
        destruct (is_object payload); [| left; reflexivity].
        destruct (is_string (JS.get payload "hash"));
          [| right; left; reflexivity].
        destruct (array_or_buffer (JS.get payload "output"));
          [| right; right; left; reflexivity].
        destruct (array_or_buffer (JS.get payload "input"));
          [discriminate | right; right; right; reflexivity].
    + intros H. apply new_rejected. unfold payload_accepted.
      destruct H as [H | [H | [H | H]]]; rewrite H;
        repeat rewrite andb_false_r; reflexivity.
  - apply new_accepted.
  - intros Hwf.
    destruct (new_accepted title listHeight payload
                (well_formed_accepted payload Hwf)) as (d & Hd & _).
    exists d. exact Hd.
Qed.

End Construction.

(** ** Concrete sessions over the scripted interpreter *)

Import Debugger.

Lemma bootstrap_timeout_witness :
  let d := Stub.session 3 2 Stub.idle_vm output 0 in
  state (steps 2 d) = output /\ state (steps 3 d) = failure /\
  counter (steps 3 d) = 0.
Proof.
  intros d.
  assert (Hpos : 0 < @maxInitTicks (Stub.core 3 2)) by reflexivity.
  assert (Hidle : forall k, (k < Z.to_nat (@maxInitTicks (Stub.core 3 2)))%nat ->
            fst (prerunOneOutput (interp (steps k d))) = false).
  { intros k Hk. destruct k as [| [| [| k]]]; try reflexivity.
    cbn in Hk. lia. }
  destruct (@bootstrap_timeout (Stub.core 3 2) d Hpos eq_refl eq_refl Hidle)
    as (Hbefore & Hfail & Hzero & _).
  split; [apply (Hbefore 2%nat); cbn; lia |].
  split; [exact Hfail | exact Hzero].
Defined.

Lemma joint_budget_witness :
  state (steps 2 (Stub.session 3 2 Stub.idle_vm both 0)) = success /\
  state (steps 1 (Stub.session 3 2 Stub.halting_vm both 0)) = both /\
  state (steps 2 (Stub.session 3 2 Stub.halting_vm both 0)) = success.
Proof.
  assert (Hpos : 0 < @maxTicks (Stub.core 3 2)) by reflexivity.
  destruct (@joint_budget (Stub.core 3 2) (Stub.session 3 2 Stub.idle_vm both 0)
              Hpos eq_refl eq_refl) as (Hidle & _ & _).
  destruct (@joint_budget (Stub.core 3 2) (Stub.session 3 2 Stub.halting_vm both 0)
              Hpos eq_refl eq_refl) as (_ & Hfire & _).
  split.
  - apply Hidle. intros k Hk. destruct k as [| [| k]]; try reflexivity.
    cbn in Hk. lia.
  - destruct (Hfire 1%nat) as (Hbefore & Hdone & _).
    + cbn. lia.
    + intros j Hj. destruct j as [| j]; [reflexivity | lia].
    + reflexivity.
    + split; [apply Hbefore; lia | exact Hdone].
Defined.

Lemma bootstrap_progress_witness :
  state (step (Stub.session 3 2 (Stub.ready_vm true) output 0)) = success /\
  state (step (Stub.session 3 2 (Stub.ready_vm false) output 2)) = both /\
  counter (step (Stub.session 3 2 (Stub.ready_vm false) output 2)) = 0.
Proof.
  destruct (@bootstrap_progress (Stub.core 3 2)
              (Stub.session 3 2 (Stub.ready_vm true) output 0) eq_refl eq_refl)
    as (Hdone & _ & _).
  destruct (@bootstrap_progress (Stub.core 3 2)
              (Stub.session 3 2 (Stub.ready_vm false) output 2) eq_refl eq_refl)
    as (_ & Hjoint & _).
  destruct (Hdone eq_refl) as (H1 & _).
  destruct (Hjoint eq_refl) as (H2 & H3 & _).
  split; [exact H1 | split; [exact H2 | exact H3]].
Defined.

Lemma step_terminal_witness :
  state (step (Stub.session 3 2 (Stub.ready_vm true) failure 0)) = failure /\
  state (steps 4 (Stub.session 3 2 Stub.halting_vm success 0)) = success.
Proof.
  destruct (@step_terminal (Stub.core 3 2)
              (Stub.session 3 2 (Stub.ready_vm true) failure 0)
              (or_intror eq_refl)) as ((H1 & _) & _).
  destruct (@step_terminal (Stub.core 3 2)
              (Stub.session 3 2 Stub.halting_vm success 0)
              (or_introl eq_refl)) as (_ & H2 & _).
  split; [exact H1 | exact (proj1 (H2 4%nat))].
Defined.

Lemma restart_resets_witness :
  let d := Stub.session 3 2 Stub.halting_vm success 0 in
  state (restart d) = output /\ counter (restart d) = 0 /\
  restart (restart d) = restart d.
Proof.
  intros d.
  destruct (@restart_resets (Stub.core 3 2) d) as ((Hs & Hc & _) & _ & Hidem).
  split; [exact Hs | split; [exact Hc | apply Hidem; reflexivity]].
Defined.

Lemma counter_below_budget_witness :
  counter_in_budget
    (perform_all [Step; Step; Step; Restart; Step]
                 (restart (Stub.session 3 2 Stub.idle_vm failure 0))).
Proof.
  assert (Hinit : 0 < @maxInitTicks (Stub.core 3 2)) by reflexivity.
  assert (Hjoint : 0 < @maxTicks (Stub.core 3 2)) by reflexivity.
  destruct (@counter_below_budget (Stub.core 3 2) Hinit Hjoint)
    as (_ & _ & _ & Hall).
  apply Hall.
Defined.

Lemma viewport_row_count_witness :
  let d := Stub.session 3 2 Stub.small_vm output 0 in
  1 <= height (mkBox 6 [] 0) - 1 /\
  List.length
    (items (fst (fst (updateThread d (mkBox 6 [] 0) (mkThread 0 []))))) = 5%nat.
Proof.
  intros d. split; [cbn; lia |].
  assert (Hrows : 1 <= height (mkBox 6 [] 0) - 1) by (cbn; lia).
  destruct (@viewport_row_count (Stub.core 3 2) d (mkBox 6 [] 0)
              (mkThread 0 []) Hrows) as (_ & _ & Hshort & _).
  destruct Hshort as [Hlen _]; [vm_compute; discriminate |].
  apply Nat2Z.inj. rewrite Hlen. reflexivity.
Defined.

Lemma viewport_current_row_witness :
  let d := Stub.session 3 2 Stub.small_vm output 0 in
  let box' := fst (fst (updateThread d (mkBox 6 [] 0) (mkThread 2 []))) in
  selected box' = 2 /\
  nth_error (items box') 2 = Some "* 0x0001: nop" /\
  nth_error (items box') 0 = Some "  0x0000: ...".
Proof.
  intros d box'.
  destruct (@viewport_current_row (Stub.core 3 2)) as (Hgen & _ & _).
  assert (Hrows : 1 <= height (mkBox 6 [] 0) - 1 < 2 ^ 31) by (cbn; lia).
  assert (Hpc : 0 <= pc (mkThread 2 []) < 2 ^ 31) by (cbn; lia).
  destruct (Hgen d (mkBox 6 [] 0) (mkThread 2 []) Hrows Hpc)
    as (Hsel & _ & _ & Hrow).
  subst box'. split; [exact Hsel |].
  split.
  - rewrite (Hrow 2%nat "nop" eq_refl). reflexivity.
  - rewrite (Hrow 0%nat "..." eq_refl). reflexivity.
Defined.

Lemma new_validates_witness :
  (exists d,
     @new (Stub.core 3 2) "session" 6
          (JS.Object [("hash", JS.Str "c0ffee"); ("output", JS.Array []);
                      ("input", JS.Buffer [Byte.x00])]) = Constructed d) /\
  (exists message,
     @new (Stub.core 3 2) "session" 6
          (JS.Object [("hash", JS.Number 7); ("output", JS.Array []);
                      ("input", JS.Array [])]) = Thrown message).
Proof.
  split.
  - destruct (@new_validates (Stub.core 3 2) "session" 6
                (JS.Object [("hash", JS.Str "c0ffee"); ("output", JS.Array []);
                            ("input", JS.Buffer [Byte.x00])]))
      as (_ & _ & Hwf).
    apply Hwf. reflexivity.
  - destruct (@new_validates (Stub.core 3 2) "session" 6
                (JS.Object [("hash", JS.Number 7); ("output", JS.Array []);
                            ("input", JS.Array [])]))
      as (Hthrow & _ & _).
    apply Hthrow. right. left. reflexivity.
Defined.

(** The list of a two-row box (one visible row) over two bytes that the
    disassembler prints as two lines: both lines are shown, nothing is
    cut. *)
Lemma viewport_overlong :
  let d :=
    Stub.session 3 2
      (Stub.mkVm [] [] false [Byte.x00; Byte.x00] (mkThread 0 []) (mkThread 0 []))
      output 0 in
  let box' := fst (fst (updateThread d (mkBox 2 [] 0) (mkThread 0 []))) in
  1 <= height (mkBox 2 [] 0) - 1 /\
  @decoded_lines (Stub.core 3 2) (height (mkBox 2 [] 0) - 1) (mkThread 0 [])
                 (memory (interp d)) = ["nop"; "nop"] /\
  items box' = ["* 0x0000: nop"; "  0x0001: nop"] /\
  Z.of_nat (List.length (items box')) <> height (mkBox 2 [] 0) - 1.
Proof.
  cbv zeta. split; [cbn; lia |].
  split; [reflexivity |]. split; [reflexivity |].
  vm_compute. discriminate.
Qed.

(** A payload whose hash is a string, but not a hexadecimal one, is
    accepted. *)
Lemma new_accepts_non_hex_hash :
  let payload :=
    JS.Object [("hash", JS.Str "zz"); ("output", JS.Array []);
               ("input", JS.Buffer [])] in
  is_hex_string (JS.get payload "hash") = false /\
  payload_well_formed payload = false /\
  (exists d, @new (Stub.core 3 2) "session" 6 payload = Constructed d) /\
  ~ (exists message, @new (Stub.core 3 2) "session" 6 payload = Thrown message).
Proof.
  cbv zeta. split; [reflexivity |]. split; [reflexivity |].
  split; [eexists; reflexivity |].
  intros [message H]. discriminate H.
Qed.

(** * Further properties *)

(** ** The state machine as a whole *)

Section Runs.
Context {core : Core}.

Lemma stepOutput_data d : data (_stepOutput d) = data d.
Proof.
  unfold _stepOutput. destruct (prerunOneOutput (interp d)) as [[|] i]; cbn.
  - destruct (output_isDone (output_clearYield i)); reflexivity.
  - destruct (maxInitTicks <=? counter d + 1); reflexivity.
Qed.

Lemma stepBoth_data d : data (_stepBoth d) = data d.
Proof.
  unfold _stepBoth. destruct (runOneBoth (interp d)) as [[|] i]; cbn.
  - reflexivity.
  - destruct (maxTicks <=? counter d + 1); reflexivity.
Qed.

Lemma stepOutput_heights d :
  height (output_box (_stepOutput d)) = height (output_box d) /\
  height (input_box (_stepOutput d)) = height (input_box d).
Proof.
  unfold _stepOutput. destruct (prerunOneOutput (interp d)) as [[|] i]; cbn.
  - destruct (output_isDone (output_clearYield i)); split; reflexivity.
  - destruct (maxInitTicks <=? counter d + 1); split; reflexivity.
Qed.

Lemma stepBoth_heights d :
  height (output_box (_stepBoth d)) = height (output_box d) /\
  height (input_box (_stepBoth d)) = height (input_box d).
Proof.
  unfold _stepBoth. destruct (runOneBoth (interp d)) as [[|] i]; cbn.
  - split; reflexivity.
  - destruct (maxTicks <=? counter d + 1); split; reflexivity.
Qed.

Lemma step_unfold d :
  step d = update (match state d with
                   | output => _stepOutput d
                   | both => _stepBoth d
                   | _ => d
                   end).
Proof. reflexivity. Qed.

Lemma step_keeps d :
  data (step d) = data d /\
  height (output_box (step d)) = height (output_box d) /\
  height (input_box (step d)) = height (input_box d).
Proof.
  rewrite step_unfold.
  match goal with
  | |- context [update ?x] =>
      destruct (update_frame x) as (Hd & _);
      destruct (update_heights x) as (Ho & Hi)
  end.
  rewrite Hd, Ho, Hi.
  destruct (state d).
  - rewrite stepOutput_data. destruct (stepOutput_heights d) as [-> ->].
    repeat split; reflexivity.
  - rewrite stepBoth_data. destruct (stepBoth_heights d) as [-> ->].
    repeat split; reflexivity.
  - repeat split; reflexivity.
  - repeat split; reflexivity.
Qed.

Lemma perform_keeps c d :
  data (perform c d) = data d /\
  height (output_box (perform c d)) = height (output_box d) /\
  height (input_box (perform c d)) = height (input_box d).
Proof.
  destruct c; cbn [perform].
  - destruct (restart_frame d) as (_ & _ & _ & Hd).
    destruct (restart_heights d) as (Ho & Hi).
    repeat split; assumption.
  - apply step_keeps.
Qed.

Lemma perform_all_keeps cs d :
  data (perform_all cs d) = data d /\
  height (output_box (perform_all cs d)) = height (output_box d) /\
  height (input_box (perform_all cs d)) = height (input_box d).
Proof.
  revert d. unfold perform_all.
  induction cs as [| c cs IH]; intros d; [repeat split; reflexivity |].
  cbn [fold_left]. destruct (IH (perform c d)) as (Hd & Ho & Hi).
  destruct (perform_keeps c d) as (Hd' & Ho' & Hi').
  repeat split; congruence.
Qed.

(** X1. No command changes the session data or the heights of the two
    lists: after any sequence of steps and restarts they are what the
    sequence started with. *)
Theorem commands_keep_data d :
  (forall cs,
     data (perform_all cs d) = data d /\
     height (output_box (perform_all cs d)) = height (output_box d) /\
     height (input_box (perform_all cs d)) = height (input_box d)) /\
  (forall n,
     data (steps n d) = data d /\
     height (output_box (steps n d)) = height (output_box d) /\
     height (input_box (steps n d)) = height (input_box d)).
Proof.
  split; [intros cs; apply perform_all_keeps |].
  intros n. induction n as [| n IH]; [repeat split; reflexivity |].
  rewrite steps_succ. destruct IH as (Hd & Ho & Hi).
  destruct (step_keeps (steps n d)) as (Hd' & Ho' & Hi').
  repeat split; congruence.
Qed.

Lemma step_rank d :
  (phase_rank (state d) <= phase_rank (state (step d)))%nat.
Proof.
  destruct (state d) eqn:Es.
  - cbn. lia.
  - destruct (fst (runOneBoth (interp d))) eqn:Ea.
    + destruct (step_both_progress d Es Ea) as (H & _). rewrite H. cbn. lia.
    + destruct (step_both_idle d Es Ea) as (_ & Hstay & Hdone).
      destruct (Z_lt_dec (counter d + 1) maxTicks) as [L | L].
      * destruct (Hstay L) as [H _]. rewrite H. cbn. lia.
      * destruct Hdone as [H _]; [lia |]. rewrite H. cbn. lia.
  - destruct (step_finished d (or_introl Es)) as (_ & _ & H & _).
    rewrite H, Es. cbn. lia.
  - destruct (step_finished d (or_intror Es)) as (_ & _ & H & _).
    rewrite H, Es. cbn. lia.
Qed.

Lemma steps_rank n m d :
  (n <= m)%nat ->
  (phase_rank (state (steps n d)) <= phase_rank (state (steps m d)))%nat.
Proof.
  intros Hnm. induction Hnm as [| m Hnm IH]; [lia |].
  rewrite steps_succ. pose proof (step_rank (steps m d)). lia.
Qed.

(** X2. Stepping only moves a session forward through the phases
    bootstrapping, joint, finished: a later state is never in an earlier
    phase than a former one.  So no step leads back to bootstrapping, a
    finished session stays as it finished, and the failed phase is entered
    from the bootstrapping phase only. *)
Theorem phases_go_forward d :
  (forall n m, (n <= m)%nat ->
     (phase_rank (state (steps n d)) <= phase_rank (state (steps m d)))%nat) /\
  (state (step d) = output -> state d = output) /\
  (state (step d) = both -> state d = output \/ state d = both) /\
  (state (step d) = failure -> state d = output \/ state d = failure) /\
  (forall n m, (n <= m)%nat -> terminal (state (steps n d)) = true ->
     state (steps m d) = state (steps n d)).
Proof.
  split; [intros n m; apply steps_rank |].
  pose proof (step_rank d) as Hr.
  split; [| split; [| split]].
  - intros H. rewrite H in Hr. destruct (state d); cbn in Hr; try lia.
    reflexivity.
  - intros H. rewrite H in Hr. destruct (state d); cbn in Hr; try lia;
      [left | right]; reflexivity.
  - intros H. destruct (state d) eqn:Es.
    + left; reflexivity.
    + exfalso.
      destruct (fst (runOneBoth (interp d))) eqn:Ea.
      * destruct (step_both_progress d Es Ea) as (H' & _). congruence.
      * destruct (step_both_idle d Es Ea) as (_ & Hstay & Hdone).
        destruct (Z_lt_dec (counter d + 1) maxTicks) as [L | L].
        -- destruct (Hstay L) as [H' _]. congruence.
        -- destruct Hdone as [H' _]; [lia |]. congruence.
    + exfalso.
      destruct (step_finished d (or_introl Es)) as (_ & _ & H' & _).
      congruence.
    + right; reflexivity.
  - intros n m Hnm Hterm.
    replace m with (n + (m - n))%nat by lia. rewrite steps_add.
    destruct (steps_finished (m - n) (steps n d)) as (_ & _ & H & _);
      [| exact H].
    destruct (state (steps n d)); try discriminate;
      [left | right]; reflexivity.
Qed.





Lemma update_rendered d : rendered (update d).
Proof. unfold rendered, update, updateThread. cbn. repeat split; reflexivity. Qed.

(** X4. Every command ends with the widgets showing the session it leaves:
    after a restart and after a step, and so after the last command of any
    sequence, the two lists hold the viewports of the two threads of the
    current interpreter, the bars their registers, and the highlight is
    green for a succeeded, red for a failed and grey for a running
    session. *)
Theorem commands_render :
  (forall d, rendered (restart d)) /\
  (forall d, rendered (step d)) /\
  (forall cs c d, rendered (perform_all (cs ++ [c]) d)).
Proof.
  assert (Hone : forall c d, rendered (perform c d)).
  { intros [|] d; cbn [perform].
    - rewrite restart_unfold. apply update_rendered.
    - rewrite step_unfold. apply update_rendered. }
  split; [exact (Hone Restart) |]. split; [exact (Hone Step) |].
  intros cs c d. unfold perform_all. rewrite fold_left_app. cbn [fold_left].
  apply Hone.
Qed.

(** X5. Restart forgets the run: when clearing the interpreter gives the
    same interpreter whatever state it was in, a restart after any
    sequence of commands gives the very session a restart at the beginning
    gives. *)
Theorem restart_forgets cs d :
  (forall i j : interpreter, clear i = clear j) ->
  restart (perform_all cs d) = restart d.
Proof.
  intros Hclear. destruct (perform_all_keeps cs d) as (Hd & Ho & Hi).
  rewrite (restart_unfold (perform_all cs d)), (restart_unfold d).
  apply update_ext; cbn.
  - exact Hd.
  - rewrite Hd. f_equal. apply Hclear.
  - reflexivity.
  - reflexivity.
  - exact Ho.
  - exact Hi.
Qed.


End Runs.

(** ** Formatting *)

Lemma hexValue_hexDigit d :
  0 <= d < 16 -> JS.hexValue (JS.hexDigit d) = Some d.
Proof.
  intros Hd.
  assert (H : d = 0 \/ d = 1 \/ d = 2 \/ d = 3 \/ d = 4 \/ d = 5 \/ d = 6 \/
              d = 7 \/ d = 8 \/ d = 9 \/ d = 10 \/ d = 11 \/ d = 12 \/
              d = 13 \/ d = 14 \/ d = 15) by lia.
  repeat (destruct H as [-> | H]; [reflexivity |]). subst d. reflexivity.
Qed.

(** The digit loop writes the number that reading the digits gives back. *)
Lemma digits16_reads_back n acc :
  0 <= n -> parseHex_from 0 (JS.digits16 n acc) = parseHex_from n acc.
Proof.
  funelim (JS.digits16 n acc); intros Hn.
  - cbn [parseHex_from]. rewrite hexValue_hexDigit by lia.
    f_equal.
  - match goal with
    | IH : 0 <= _ -> parseHex_from 0 (JS.digits16 _ _) = _ |- _ =>
        rewrite IH by (apply Z.div_pos; lia)
    end.
    cbn [parseHex_from].
    rewrite hexValue_hexDigit by (apply Z.mod_pos_bound; lia).
    f_equal. pose proof (Z.div_mod n 16 ltac:(lia)). lia.
Qed.

Lemma addr_small n : 0 <= n < 65536 -> addr n = "0x" ++ hex4 n.
Proof.
  intros Hn. pose proof (toString16_length_small n Hn) as [L1 L4].
  rewrite addr_by_length.
  replace (String.length (JS.toString16 n) <=? 4)%nat with true
    by (symmetry; apply Nat.leb_le; lia).
  replace (String.length (JS.toString16 n) =? 0)%nat with false
    by (symmetry; apply Nat.eqb_neq; lia).
  cbn [andb negb]. rewrite toString16_hex4 by lia. reflexivity.
Qed.

Lemma hex4_reads_back n :
  0 <= n < 65536 -> parseHex_from 0 (hex4 n) = Some n.
Proof.
  intros Hn. unfold hex4. cbn [parseHex_from].
  rewrite !hexValue_hexDigit by (apply Z.mod_pos_bound; lia).
  f_equal. Z.div_mod_to_equations. lia.
Qed.

(** X6. An address label can be read back: for an offset below 16^4 the
    four digits after ["0x"] are the hexadecimal notation of the offset, so
    two different offsets never get the same label and none gets the
    overflow marker; the marker itself reads as no number.  More
    generally the digits [toString(16)] produces for any non-negative
    integer read back as that integer. *)
Theorem addr_reads_back :
  (forall n, 0 <= n < 65536 -> address_value (addr n) = Some n) /\
  (forall n, 0 <= n < 65536 -> addr n <> "0x....") /\
  (forall a b, 0 <= a < 65536 -> 0 <= b < 65536 -> addr a = addr b -> a = b) /\
  address_value "0x...." = None /\
  (forall n, 0 <= n -> parseHex_from 0 (JS.toString16 n) = Some n).
Proof.
  assert (Hback : forall n, 0 <= n < 65536 -> address_value (addr n) = Some n).
  { intros n Hn. rewrite addr_small by exact Hn.
    cbn [append address_value]. apply hex4_reads_back. exact Hn. }
  split; [exact Hback |]. split; [| split; [| split]].
  - intros n Hn E. pose proof (Hback n Hn) as H. rewrite E in H.
    discriminate H.
  - intros a b Ha Hb E. pose proof (Hback a Ha) as H1.
    pose proof (Hback b Hb) as H2. rewrite E in H1. congruence.
  - reflexivity.
  - intros n Hn. rewrite toString16_nonneg by exact Hn.
    rewrite digits16_reads_back by exact Hn. reflexivity.
Qed.

Lemma byte_round_trip b : JS.byte_of_Z (Z_of_byte b) = b.
Proof.
  unfold JS.byte_of_Z, Z_of_byte. rewrite N2Z.id.
  rewrite Strings.Byte.of_to_N. reflexivity.
Qed.

Lemma Z_of_byte_range b : 0 <= Z_of_byte b < 256.
Proof.
  unfold Z_of_byte. pose proof (Strings.Byte.to_N_bounded b). lia.
Qed.

Lemma hex_round_trip bytes : JS.bufferFromHex (hex_encode bytes) = bytes.
Proof.
  induction bytes as [| b rest IH]; [reflexivity |].
  pose proof (Z_of_byte_range b) as Hb.
  cbn [hex_encode JS.bufferFromHex].
  rewrite !hexValue_hexDigit.
  - rewrite IH. f_equal.
    replace (16 * (Z_of_byte b / 16) + Z_of_byte b mod 16) with (Z_of_byte b)
      by (pose proof (Z.div_mod (Z_of_byte b) 16 ltac:(lia)); lia).
    apply byte_round_trip.
  - apply Z.mod_pos_bound. lia.
  - split; [apply Z.div_pos; lia | apply Z.div_lt_upper_bound; lia].
Qed.

Section ConstructionData.
Context {core : Core}.

(** X7. What a constructed session holds.  For a payload that passes
    the checks and whose hash is the hexadecimal text of some bytes, the
    session's hash is those bytes; an array given as output or input is
    compiled, the output at [outputOffset] and the input at [inputOffset],
    and a buffer is taken as it is; the interpreter is new, the phase is
    bootstrapping with counter 0 and both lists are empty. *)
Theorem new_session_data title listHeight payload bytes :
  is_object payload = true ->
  JS.get payload "hash" = JS.Str (hex_encode bytes) ->
  array_or_buffer (JS.get payload "output") = true ->
  array_or_buffer (JS.get payload "input") = true ->
  exists d,
    new title listHeight payload = Constructed d /\
    Data.hash (data d) = bytes /\
    (forall text, JS.get payload "output" = JS.Array text ->
       Data.output (data d) = Opcodes (compileTextArray text outputOffset)) /\
    (forall raw, JS.get payload "output" = JS.Buffer raw ->
       Data.output (data d) = RawBuffer raw) /\
    (forall text, JS.get payload "input" = JS.Array text ->
       Data.input (data d) = Opcodes (compileTextArray text inputOffset)) /\
    (forall raw, JS.get payload "input" = JS.Buffer raw ->
       Data.input (data d) = RawBuffer raw) /\
    interp d = Interpreter_new /\ state d = output /\ counter d = 0 /\
    items (output_box d) = [] /\ items (input_box d) = [] /\
    height (output_box d) = listHeight /\ height (input_box d) = listHeight.
Proof.
  intros Hobj Hhash Hout Hin. unfold new.
  unfold is_object in Hobj. unfold array_or_buffer in Hout, Hin.
  rewrite Hobj, Hout, Hin, Hhash. cbn [negb JS.typeof JS.type_tag_eqb].
  eexists. split; [reflexivity |]. cbn.
  split; [apply hex_round_trip |].
  repeat split; try reflexivity; intros ? E; rewrite E; reflexivity.
Qed.

End ConstructionData.

(** ** The window and its rows *)

Lemma split_lines_nonempty s : JS.split_lines s <> [].
Proof.
  destruct s as [| c rest]; cbn [JS.split_lines]; [discriminate |].
  destruct (Ascii.eqb c JS.newline); [discriminate |].
  destruct (JS.split_lines rest); discriminate.
Qed.

Lemma split_lines_join s : join_lines (JS.split_lines s) = s.
Proof.
  induction s as [| c rest IH]; [reflexivity |].
  cbn [JS.split_lines].
  destruct (Ascii.eqb c JS.newline) eqn:Ec.
  - apply Ascii.eqb_eq in Ec. subst c.
    pose proof (split_lines_nonempty rest) as Hne.
    destruct (JS.split_lines rest) as [| line more]; [congruence |].
    cbn [join_lines append]. cbn [join_lines] in IH. rewrite IH. reflexivity.
  - pose proof (split_lines_nonempty rest) as Hne.
    destruct (JS.split_lines rest) as [| line more]; [congruence |].
    destruct more as [| line' more'].
    + cbn [join_lines] in *. rewrite IH. reflexivity.
    + cbn [join_lines append] in *. rewrite IH. reflexivity.
Qed.

Lemma split_lines_count s :
  List.length (JS.split_lines s) = S (count_newlines s).
Proof.
  induction s as [| c rest IH]; [reflexivity |].
  cbn [JS.split_lines count_newlines].
  destruct (Ascii.eqb c JS.newline).
  - cbn [List.length]. rewrite IH. reflexivity.
  - pose proof (split_lines_nonempty rest) as Hne.
    destruct (JS.split_lines rest) as [| line more]; [congruence |].
    cbn [List.length] in *. rewrite IH. reflexivity.
Qed.

Lemma split_lines_single s :
  Forall (fun line => count_newlines line = 0%nat) (JS.split_lines s).
Proof.
  induction s as [| c rest IH]; [repeat constructor |].
  cbn [JS.split_lines].
  destruct (Ascii.eqb c JS.newline) eqn:Ec.
  - constructor; [reflexivity | exact IH].
  - pose proof (split_lines_nonempty rest) as Hne.
    destruct (JS.split_lines rest) as [| line more]; [congruence |].
    inversion IH as [| ? ? Hline Hmore]; subst.
    constructor; [| exact Hmore].
    cbn [count_newlines]. rewrite Ec. exact Hline.
Qed.

Section Window.
Context {core : Core}.

(** X8. Splitting loses nothing of the disassembly: joining the decoded
    lines of a window with line breaks gives back the text the
    disassembler printed for it; there is one line more than the text has
    line breaks, so at least one, and no line holds a line break. *)
Theorem decoded_lines_whole rows thread mem :
  join_lines (decoded_lines rows thread mem)
    = disassemble (window_code rows thread mem) /\
  List.length (decoded_lines rows thread mem)
    = S (count_newlines (disassemble (window_code rows thread mem))) /\
  Forall (fun line => count_newlines line = 0%nat)
         (decoded_lines rows thread mem).
Proof.
  unfold decoded_lines. split; [apply split_lines_join |].
  split; [apply split_lines_count | apply split_lines_single].
Qed.

Lemma window_code_slice rows (thread : Thread) (mem : list Byte.byte) :
  1 <= rows < 2 ^ 31 ->
  0 <= pc thread ->
  let start := pc thread - 2 * (rows / 2) in
  let end_ := pc thread + 2 * (rows - rows / 2) in
  let len := Z.of_nat (List.length mem) in
  let lo := Z.min (Z.max 0 start) len in
  let hi := Z.min end_ len in
  window_code rows thread mem
    = firstn (Z.to_nat (hi - lo)) (skipn (Z.to_nat lo) mem) /\
  lo <= hi /\ hi - lo <= 2 * rows.
Proof.
  intros Hrows Hpc start end_ len lo hi.
  assert (Hcb : JS.sar rows 1 = rows / 2) by (apply sar_1_int32; lia).
  assert (Hhalf : 0 <= rows / 2 /\ 2 * (rows / 2) <= rows).
  { split; [apply Z.div_pos; lia | apply Z.mul_div_le; lia]. }
  assert (Hlen : 0 <= len) by (subst len; lia).
  split; [| subst lo hi start end_; lia].
  unfold window_code. rewrite Hcb. fold start end_.
  destruct (start <? 0) eqn:Es.
  - apply Z.ltb_lt in Es. unfold JS.slice, JS.relativeIndex. fold len.
    replace (0 <? 0) with false by reflexivity.
    replace (end_ <? 0) with false by (symmetry; apply Z.ltb_ge; subst end_; lia).
    subst lo hi. replace (Z.max 0 start) with 0 by lia. reflexivity.
  - apply Z.ltb_ge in Es. unfold JS.slice, JS.relativeIndex. fold len.
    replace (start <? 0) with false by (symmetry; apply Z.ltb_ge; lia).
    replace (end_ <? 0) with false by (symmetry; apply Z.ltb_ge; subst end_; lia).
    subst lo hi. replace (Z.max 0 start) with start by lia. reflexivity.
Qed.

Lemma window_code_length rows (thread : Thread) (mem : list Byte.byte) :
  1 <= rows < 2 ^ 31 ->
  0 <= pc thread ->
  let start := pc thread - 2 * (rows / 2) in
  let end_ := pc thread + 2 * (rows - rows / 2) in
  let len := Z.of_nat (List.length mem) in
  Z.of_nat (List.length (window_code rows thread mem))
    = Z.min end_ len - Z.min (Z.max 0 start) len.
Proof.
  intros Hrows Hpc start end_ len.
  destruct (window_code_slice rows thread mem Hrows Hpc) as (E & Hle & _).
  cbv zeta in E, Hle. subst start end_ len. rewrite E.
  rewrite length_firstn, length_skipn. lia.
Qed.

(** X9. The window is a stretch of memory of at most [2 * rowCount] bytes,
    however large the memory is: for [1 <= rowCount < 2^31] and a
    non-negative program counter it is the bytes from
    [max 0 (pc - 2 * floor(rowCount / 2))] up to
    [pc + 2 * (rowCount - floor(rowCount / 2))], both cut to the end of
    memory.  It has exactly [2 * rowCount] bytes when that range lies
    within memory and is empty when it starts at or after the end. *)
Theorem window_in_memory rows (thread : Thread) (mem : list Byte.byte) :
  1 <= rows < 2 ^ 31 ->
  0 <= pc thread ->
  let start := pc thread - 2 * (rows / 2) in
  let end_ := pc thread + 2 * (rows - rows / 2) in
  let len := Z.of_nat (List.length mem) in
  let lo := Z.min (Z.max 0 start) len in
  let hi := Z.min end_ len in
  (mem = firstn (Z.to_nat lo) mem ++ window_code rows thread mem
         ++ skipn (Z.to_nat hi) mem)%list /\
  Z.of_nat (List.length (window_code rows thread mem)) = hi - lo /\
  Z.of_nat (List.length (window_code rows thread mem)) <= 2 * rows /\
  (0 <= start -> end_ <= len ->
   Z.of_nat (List.length (window_code rows thread mem)) = 2 * rows) /\
  (len <= start -> window_code rows thread mem = []).
Proof.
  intros Hrows Hpc start end_ len lo hi.
  destruct (window_code_slice rows thread mem Hrows Hpc) as (E & Hle & Hbound).
  pose proof (window_code_length rows thread mem Hrows Hpc) as Hlen.
  cbv zeta in E, Hle, Hbound, Hlen. subst lo hi len start end_.
  split; [| split; [exact Hlen | split; [lia | split]]].
  - rewrite E.
    match goal with
    | |- mem = (firstn ?a mem ++ firstn ?b (skipn ?a mem) ++ _)%list =>
        rewrite <- (firstn_skipn a mem) at 1; f_equal;
        rewrite <- (firstn_skipn b (skipn a mem)) at 1; f_equal;
        rewrite skipn_skipn; f_equal; lia
    end.
  - intros H0 Hfit. rewrite Hlen. lia.
  - intros Hpast. apply length_zero_iff_nil.
    apply Nat2Z.inj. rewrite Hlen. lia.
Qed.

Lemma items_nth d box thread i :
  let rows := height box - 1 in
  nth_error (items (fst (fst (updateThread d box thread)))) i =
  option_map
    (fun line =>
       row_text (Z.of_nat i =? JS.sar rows 1)
                (Z.max 0 (JS.sar (pc thread - 2 * JS.sar rows 1) 1 + Z.of_nat i))
                line)
    (nth_error (pad_front rows (decoded_lines rows thread (memory (interp d)))) i).
Proof.
  intros rows. rewrite updateThread_box. cbn [items]. fold rows.
  rewrite viewport_lines_decoded. unfold JS.mapi.
  rewrite map_from_nth_error. rewrite Z.add_0_l. reflexivity.
Qed.

(** X10. The selected row carries the program counter: for
    [1 <= rowCount < 2^31] and [0 <= pc < 2^31] the row at index
    [floor(rowCount / 2)] is ["* "], the label of the word address
    [floor(pc / 2)], and a line; and the label of every row [i] is that
    address moved by the distance [i - floor(rowCount / 2)], or 0 where
    that would be negative. *)
Theorem current_row_shows_pc d box thread :
  let rows := height box - 1 in
  let box' := fst (fst (updateThread d box thread)) in
  1 <= rows < 2 ^ 31 ->
  0 <= pc thread < 2 ^ 31 ->
  (exists line,
     nth_error (items box') (Z.to_nat (rows / 2))
     = Some ("* " ++ addr (pc thread / 2) ++ ": " ++ line)) /\
  (forall i text,
     nth_error (items box') i = Some text ->
     exists line,
       text = row_text (Z.of_nat i =? rows / 2)
                       (Z.max 0 (pc thread / 2 + (Z.of_nat i - rows / 2)))
                       line).
Proof.
  intros rows box' Hrows Hpc.
  assert (Hcb : JS.sar rows 1 = rows / 2) by (apply sar_1_int32; lia).
  assert (Hhalf : 0 <= rows / 2 < rows).
  { split; [apply Z.div_pos; lia | apply Z.div_lt_upper_bound; lia]. }
  assert (Hmul : 2 * (rows / 2) <= rows) by (apply Z.mul_div_le; lia).
  assert (Hstart : JS.sar (pc thread - 2 * (rows / 2)) 1
                   = pc thread / 2 - rows / 2).
  { rewrite sar_1_int32 by lia.
    replace (pc thread - 2 * (rows / 2)) with (pc thread + - (rows / 2) * 2)
      by lia.
    rewrite Z.div_add by lia. lia. }
  assert (Hnth : forall i,
            nth_error (items box') i =
            option_map
              (fun line =>
                 row_text (Z.of_nat i =? rows / 2)
                          (Z.max 0 (pc thread / 2 + (Z.of_nat i - rows / 2)))
                          line)
              (nth_error
                 (pad_front rows
                    (decoded_lines rows thread (memory (interp d)))) i)).
  { intros i. subst box'. rewrite items_nth. fold rows.
    rewrite Hcb, Hstart.
    replace (pc thread / 2 - rows / 2 + Z.of_nat i)
      with (pc thread / 2 + (Z.of_nat i - rows / 2)) by lia.
    reflexivity. }
  split.
  - pose proof (pad_front_length rows
                  (decoded_lines rows thread (memory (interp d)))) as Hlen.
    destruct (nth_error
                (pad_front rows (decoded_lines rows thread (memory (interp d))))
                (Z.to_nat (rows / 2))) as [line |] eqn:En.
    + exists line. rewrite Hnth, En. cbn [option_map]. unfold row_text.
      rewrite Z2Nat.id by lia. rewrite Z.eqb_refl.
      replace (rows / 2 - rows / 2) with 0 by lia. rewrite Z.add_0_r.
      replace (Z.max 0 (pc thread / 2)) with (pc thread / 2)
        by (assert (0 <= pc thread / 2) by (apply Z.div_pos; lia); lia).
      reflexivity.
    + apply nth_error_None in En. lia.
  - intros i text Hi. rewrite Hnth in Hi.
    destruct (nth_error _ i) as [line |]; [| discriminate].
    cbn [option_map] in Hi. injection Hi as <-. exists line. reflexivity.
Qed.

(** X11. When every decoded line stands for at least two bytes of code
    (an empty window still giving one line), the list has exactly
    [rowCount] rows: for [1 <= rowCount < 2^31] and a non-negative program
    counter the disassembly of the window never has more than [rowCount]
    lines, so padding fills the list up and nothing runs over. *)
Theorem viewport_exact_rows d box thread :
  let rows := height box - 1 in
  1 <= rows < 2 ^ 31 ->
  0 <= pc thread ->
  (forall code,
     Z.of_nat (List.length (JS.split_lines (disassemble code)))
     <= Z.max 1 (Z.of_nat (List.length code) / 2)) ->
  Z.of_nat (List.length (items (fst (fst (updateThread d box thread))))) = rows.
Proof.
  intros rows Hrows Hpc Hwords.
  rewrite updateThread_box. cbn [items]. fold rows.
  rewrite viewport_lines_decoded. unfold JS.mapi. rewrite map_from_length.
  rewrite pad_front_length. unfold decoded_lines.
  pose proof (Hwords (window_code rows thread (memory (interp d)))) as Hl.
  destruct (window_code_slice rows thread (memory (interp d)) Hrows Hpc)
    as (_ & Hle & Hbound).
  pose proof (window_code_length rows thread (memory (interp d)) Hrows Hpc)
    as Hlen.
  cbv zeta in Hle, Hbound, Hlen.
  assert (Z.of_nat (List.length (window_code rows thread (memory (interp d)))) / 2
          <= rows).
  { apply Z.div_le_upper_bound; lia. }
  lia.
Qed.

End Window.

(** ** The register bar *)

Lemma map_from_seq {A B} (f : A -> Z -> B) i l (d : A) :
  JS.map_from f i l =
  List.map (fun k => f (nth k l d) (i + Z.of_nat k)) (seq 0 (List.length l)).
Proof.
  revert i. induction l as [| x rest IH]; intros i; [reflexivity |].
  cbn [JS.map_from List.length seq List.map nth]. rewrite Z.add_0_r. f_equal.
  rewrite IH, <- seq_shift, map_map. apply map_ext. intros k.
  cbn [nth]. f_equal. lia.
Qed.

(** X12. The register bar lists the registers 1, 2, ... up to the last, in
    this order, register [k] as [r<k>:] followed by the address form of its
    value, with single spaces between the entries.  Register 0 is not
    shown, so a thread with no register or with register 0 alone gives an
    empty bar, and the bar does not depend on the value of register 0. *)
Theorem register_line_entries :
  (forall thread,
     register_line thread =
     JS.join_space
       (List.map (fun k => register_entry (Z.of_nat k) (nth k (regs thread) 0))
                 (seq 1 (List.length (regs thread) - 1)))) /\
  (forall thread, (List.length (regs thread) <= 1)%nat ->
     register_line thread = "") /\
  (forall p p' r0 r0' rest,
     register_line (mkThread p (r0 :: rest))
     = register_line (mkThread p' (r0' :: rest))).
Proof.
  split; [| split].
  - intros [p rs]. unfold register_line. cbn [regs]. f_equal.
    destruct rs as [| r0 rest]; [reflexivity |].
    cbn [tl List.length]. rewrite Nat.sub_succ, Nat.sub_0_r.
    rewrite (map_from_seq _ 1 rest 0), <- seq_shift, map_map.
    apply map_ext. intros k. cbn [nth]. unfold register_entry.
    replace (Z.of_nat (S k)) with (1 + Z.of_nat k) by lia. reflexivity.
  - intros [p rs] Hlen. cbn [regs] in Hlen.
    destruct rs as [| r0 [| r1 rest]]; cbn [List.length] in Hlen;
      [reflexivity | reflexivity | lia].
  - intros. reflexivity.
Qed.

(** ** Concrete runs for the further properties *)

Lemma word_listing_lines code :
  Z.of_nat (List.length (JS.split_lines (WordStub.listing code)))
  = Z.max 1 (Z.of_nat (List.length code) / 2).
Proof.
  assert (H : forall n code, (List.length code <= n)%nat ->
            Z.of_nat (List.length (JS.split_lines (WordStub.listing code)))
            = Z.max 1 (Z.of_nat (List.length code) / 2)).
  { clear code. induction n as [| n IH]; intros code Hn.
    - destruct code; [reflexivity | cbn in Hn; lia].
    - destruct code as [| a [| b rest]]; [reflexivity | reflexivity |].
      destruct rest as [| c [| e rest']]; [reflexivity | reflexivity |].
      assert (Hrest : (List.length (c :: e :: rest') <= n)%nat)
        by (cbn [List.length] in *; lia).
      specialize (IH (c :: e :: rest') Hrest).
      change (WordStub.listing (a :: b :: c :: e :: rest'))
        with ("nop" ++ String JS.newline (WordStub.listing (c :: e :: rest'))).
      cbn [append JS.split_lines]. 
      replace (Ascii.eqb "n" JS.newline) with false by reflexivity.
      replace (Ascii.eqb "o" JS.newline) with false by reflexivity.
      replace (Ascii.eqb "p" JS.newline) with false by reflexivity.
      rewrite Ascii.eqb_refl.
      cbn [List.length]. cbn [List.length] in IH.
      rewrite Nat2Z.inj_succ, IH.
      replace (Z.of_nat (S (S (S (S (List.length rest'))))))
        with (Z.of_nat (S (S (List.length rest'))) + 1 * 2) by lia.
      rewrite Z.div_add by lia.
      assert (1 <= Z.of_nat (S (S (List.length rest'))) / 2)
        by (apply Z.div_le_lower_bound; lia).
      lia. }
  apply (H (List.length code)). lia.
Qed.

Lemma phases_go_forward_witness :
  let d := Stub.session 3 2 Stub.halting_vm both 0 in
  state (steps 5 d) = state (steps 2 d) /\ state d = both.
Proof.
  intros d.
  destruct (@phases_go_forward (Stub.core 3 2) d) as (_ & _ & _ & _ & Hstay).
  split; [| reflexivity].
  apply Hstay; [lia | reflexivity].
Defined.


Lemma restart_forgets_witness :
  let d := Stub.session 3 2 Stub.halting_vm output 0 in
  restart (perform_all [Step; Step; Restart; Step] d) = restart d.
Proof.
  intros d. apply (@restart_forgets (Stub.core 3 2)).
  intros i j. reflexivity.
Defined.

Lemma addr_reads_back_witness :
  address_value (addr 43981) = Some 43981 /\ addr 7 <> "0x....".
Proof.
  destruct addr_reads_back as (Hback & Hmark & _).
  split; [apply Hback; lia | apply Hmark; lia].
Defined.

Lemma new_session_data_witness :
  exists d,
    @new (Stub.core 3 2) "session" 6
         (JS.Object [("hash", JS.Str "c0ffee"); ("output", JS.Array []);
                     ("input", JS.Buffer [Byte.x07])]) = Constructed d /\
    Data.hash (data d) = [Byte.xc0; Byte.xff; Byte.xee].
Proof.
  destruct (@new_session_data (Stub.core 3 2) "session" 6
              (JS.Object [("hash", JS.Str "c0ffee"); ("output", JS.Array []);
                          ("input", JS.Buffer [Byte.x07])])
              [Byte.xc0; Byte.xff; Byte.xee]
              eq_refl eq_refl eq_refl eq_refl) as (d & Hnew & Hhash & _).
  exists d. split; [exact Hnew | exact Hhash].
Defined.

Lemma window_in_memory_witness :
  1 <= 5 < 2 ^ 31 /\
  List.length (window_code 5 (mkThread 0 []) (Stub.image Stub.small_vm)) = 4%nat.
Proof.
  assert (Hrows : 1 <= 5 < 2 ^ 31) by lia.
  split; [exact Hrows |].
  destruct (window_in_memory 5 (mkThread 0 []) (Stub.image Stub.small_vm)
              Hrows ltac:(cbn; lia)) as (_ & Hlen & _).
  apply Nat2Z.inj. rewrite Hlen. reflexivity.
Defined.

Lemma current_row_shows_pc_witness :
  let d := Stub.session 3 2 Stub.small_vm output 0 in
  exists line,
    nth_error (items (fst (fst (updateThread d (mkBox 6 [] 0) (mkThread 2 [])))))
              2
    = Some ("* 0x0001: " ++ line).
Proof.
  intros d.
  assert (Hrows : 1 <= height (mkBox 6 [] 0) - 1 < 2 ^ 31) by (cbn; lia).
  assert (Hpc : 0 <= pc (mkThread 2 []) < 2 ^ 31) by (cbn; lia).
  destruct (@current_row_shows_pc (Stub.core 3 2) d (mkBox 6 [] 0)
              (mkThread 2 []) Hrows Hpc) as ((line & Hline) & _).
  exists line. exact Hline.
Defined.

Lemma viewport_exact_rows_witness :
  let d := WordStub.session 3 2 Stub.small_vm output 0 in
  List.length
    (items (fst (fst (updateThread d (mkBox 2 [] 0) (mkThread 0 []))))) = 1%nat.
Proof.
  intros d.
  assert (Hrows : 1 <= height (mkBox 2 [] 0) - 1 < 2 ^ 31) by (cbn; lia).
  assert (Hpc : 0 <= pc (mkThread 0 [])) by (cbn; lia).
  assert (Hwords : forall code,
            Z.of_nat (List.length
                        (JS.split_lines (@disassemble (WordStub.core 3 2) code)))
            <= Z.max 1 (Z.of_nat (List.length code) / 2)).
  { intros code. cbn [disassemble WordStub.core].
    rewrite word_listing_lines. lia. }
  pose proof (@viewport_exact_rows (WordStub.core 3 2) d (mkBox 2 [] 0)
                (mkThread 0 []) Hrows Hpc Hwords) as H.
  apply Nat2Z.inj. rewrite H. reflexivity.
Defined.

Lemma register_line_entries_witness :
  register_line (mkThread 0 [9]) = "" /\
  register_line (mkThread 0 [9; 1; 43981])
  = "{bold}r1:{/bold}0x0001 {bold}r2:{/bold}0xabcd".
Proof.
  destruct register_line_entries as (Hform & Hempty & _).
  split; [apply Hempty; cbn; lia |].
  rewrite Hform. reflexivity.
Defined.

